(** * InfiniteScroller: a shallow embedding of the marquee component

    The repository holds one React component, [InfiniteScroller], in two
    listings of the same file.  Both measure the laid-out children of the
    wrapper, repeat [items] so that the strip is long enough, and drive one
    GSAP tween over the wrapper.  They differ in the animation distance
    (full scroll width against scroll width minus container width) and in
    the resize handler (an immediate reset followed by a 50 ms timeout
    against a 100 ms debounce).

    Pixel quantities read from the DOM ([offsetWidth], [scrollWidth]) are
    integers and are modelled in [Z]; [gap] is taken in whole pixels too.
    [speed] and the tween duration are rationals.  The rendering framework
    and the animation engine are outside the repository: what the component
    relies on (effects and their dependency arrays, state updates compared
    by identity, [kill] / [pause] / [resume] on a tween) is written out as
    an explicit state machine. *)

From Stdlib Require Import ZArith QArith Qround Qabs List Bool Arith Lia.
Import ListNotations.

Open Scope Z_scope.

(** ** Step 1, pure part: measuring and cloning *)

Module Measure.

(** [itemsArray.forEach((el, i) => { totalWidth += el.offsetWidth;
    if (i < itemsArray.length - 1) totalWidth += gap; })], with the widths
    of the elements in [ws], the loop index in [i] and the accumulator in
    [totalWidth]. *)
Fixpoint forEachWidth (len gap i : Z) (ws : list Z) (totalWidth : Z) : Z :=
  match ws with
  | [] => totalWidth
  | w :: rest =>
      let t1 := totalWidth + w in
      let t2 := if i <? len - 1 then t1 + gap else t1 in
      forEachWidth len gap (i + 1) rest t2
  end.

Definition measureTotalWidth (gap : Z) (ws : list Z) : Z :=
  forEachWidth (Z.of_nat (length ws)) gap 0 ws 0.

(** The sum of the widths alone, for the closed form of the loop. *)
Definition sumWidths (ws : list Z) : Z := fold_right Z.add 0 ws.

(** [Math.ceil(containerWidth / totalWidth) + 2].  Both operands are
    integers; below 2^53 the rounded quotient of the source has the
    ceiling of the exact one, which is what is taken here. *)
Definition cloneCount (containerWidth totalWidth : Z) : Z :=
  Qceiling (inject_Z containerWidth / inject_Z totalWidth)%Q + 2.

(** [Array.from({ length: cloneCount }, () => items).flat()]; a length
    below zero gives the empty array, as [Z.to_nat] does. *)
Definition repeatItems {A : Type} (count : Z) (items : list A) : list A :=
  concat (repeat items (Z.to_nat count)).

(** The guard of the measuring effect:
    [totalWidth <= 0 || itemsArray.length === 0]. *)
Definition skipCloning (totalWidth : Z) (ws : list Z) : bool :=
  (totalWidth <=? 0) || (length ws =? 0)%nat.

End Measure.

(** ** Step 2, pure part: the variables handed to [gsap.to] *)

Inductive Listing : Type :=
  | FullScroll            (* first listing: distance is the scroll width *)
  | ScrollMinusContainer. (* second listing: scroll width minus container width *)

Inductive Direction : Type := DirLeft | DirRight.

Inductive Ease : Type := linear.

Record TweenVars : Type := mkVars {
  x : Z;
  duration : Q;
  ease : Ease;
  repeat_ : Z
}.

Module Animate.

(** [direction === "left" ? -d : d], with [d] the listing's extent. *)
Definition distance (l : Listing) (dir : Direction)
    (totalWidth containerWidth : Z) : Z :=
  match l, dir with
  | FullScroll, DirLeft => - totalWidth
  | FullScroll, DirRight => totalWidth
  | ScrollMinusContainer, DirLeft => - (totalWidth - containerWidth)
  | ScrollMinusContainer, DirRight => totalWidth - containerWidth
  end.

(** [Math.abs(distance) / speed], for a speed that is not 0.  At speed 0
    the source gives [Infinity] or [NaN] and this quotient gives 0: a
    statement about the value of a duration takes a positive speed. *)
Definition durationOf (dist : Z) (speed : Q) : Q :=
  (Qabs (inject_Z dist) / speed)%Q.

Definition tweenVars (l : Listing) (dir : Direction)
    (totalWidth containerWidth : Z) (speed : Q) : TweenVars :=
  let d := distance l dir totalWidth containerWidth in
  {| x := d; duration := durationOf d speed; ease := linear; repeat_ := -1 |}.

End Animate.

(** ** The animation engine, as far as the component uses it

    A tween keeps the variables it was created with, a playhead (elapsed
    playing time in milliseconds) and two flags.  [kill] ends it for good,
    [pause] and [resume] toggle [paused] and leave the playhead alone,
    and time passing moves the playhead of a tween that is neither killed
    nor paused. *)

Record Tween : Type := mkTween {
  vars : TweenVars;
  killed : bool;
  paused : bool;
  playhead : nat
}.

Module Gsap.

Definition kill (t : Tween) : Tween :=
  {| vars := vars t; killed := true; paused := paused t; playhead := playhead t |}.

Definition pause (t : Tween) : Tween :=
  {| vars := vars t; killed := killed t; paused := true; playhead := playhead t |}.

Definition resume (t : Tween) : Tween :=
  {| vars := vars t; killed := killed t; paused := false; playhead := playhead t |}.

Definition running (t : Tween) : bool := negb (killed t) && negb (paused t).

Definition advance (ms : nat) (t : Tween) : Tween :=
  if running t
  then {| vars := vars t; killed := killed t; paused := paused t;
          playhead := (playhead t + ms)%nat |}
  else t.

Definition fresh (v : TweenVars) : Tween :=
  {| vars := v; killed := false; paused := false; playhead := 0%nat |}.

(** Apply [f] to the tween stored at index [i]. *)
Fixpoint onTween (f : Tween -> Tween) (i : nat) (ts : list Tween) : list Tween :=
  match ts, i with
  | [], _ => []
  | t :: rest, O => f t :: rest
  | t :: rest, S j => t :: onTween f j rest
  end.

(** The translation a tween applies: [x] is reached linearly over
    [duration] seconds and the tween restarts from the origin
    ([repeat: -1]).  A function of the variables and the playhead only. *)
Definition offset (t : Tween) : Q :=
  let d := duration (vars t) in
  let secs := (inject_Z (Z.of_nat (playhead t)) / 1000)%Q in
  if Qle_bool d 0 then inject_Z (x (vars t))
  else
    let turns := (secs / d)%Q in
    (inject_Z (x (vars t)) * (turns - inject_Z (Qfloor turns)))%Q.

End Gsap.

(** ** The component *)

Record JsArray (A : Type) : Type := mkArray {
  ref : nat;       (* object identity *)
  elems : list A
}.
Arguments mkArray {A}.
Arguments ref {A}.
Arguments elems {A}.

Record Options : Type := mkOptions {
  speed : Q;
  gap : Z;
  direction : Direction;
  pauseOnHover : bool
}.

Definition defaultOptions : Options :=
  {| speed := 50%Q; gap := 20; direction := DirLeft; pauseOnHover := false |}.

Inductive TimerAction : Type :=
  | DispatchResizeTrigger  (* first listing: the 50 ms timeout *)
  | ClearClonedItems.      (* second listing: the debounced reset *)

Record Timer : Type := mkTimer {
  remaining : nat;
  action : TimerAction
}.

Definition direction_eqb (a b : Direction) : bool :=
  match a, b with
  | DirLeft, DirLeft | DirRight, DirRight => true
  | _, _ => false
  end.

Definition isClear (t : Timer) : bool :=
  match action t with ClearClonedItems => true | DispatchResizeTrigger => false end.

(** React gives up after this many nested updates. *)
Definition maxUpdateDepth : nat := 50.

(** A concrete layout for worked examples: a node is its own width and
    the wrapper is as wide as its children and the gaps between them. *)
Module Sample.

Definition width (n : Z) : Z := n.

Definition scrollWidth (children : list Z) (gap : Z) : Z :=
  Measure.measureTotalWidth gap children.

Definition hoverOptions : Options :=
  {| speed := 50%Q; gap := 20; direction := DirLeft; pauseOnHover := true |}.

Definition tightOptions : Options :=
  {| speed := 50%Q; gap := 10; direction := DirLeft; pauseOnHover := false |}.

End Sample.

Section Component.

Variable ReactNode : Type.

(** The layout engine: the [offsetWidth] of the wrapper div of an item and
    the [scrollWidth] of the wrapper for a list of children and a gap. *)
Variable offsetWidthOf : ReactNode -> Z.
Variable scrollWidthOf : list ReactNode -> Z -> Z.

Variable listing : Listing.

Record Props : Type := mkProps {
  items : JsArray ReactNode;
  options : Options
}.

Record State : Type := mkState {
  mounted : bool;                   (* containerRef / wrapperRef are set *)
  props : Props;                    (* props of the last render *)
  clonedItems : JsArray ReactNode;  (* state of the last render = children shown *)
  tweenRef : option nat;            (* tweenRef.current, an index in [tweens] *)
  tweens : list Tween;              (* every tween the engine was given *)
  hoverListeners : bool;            (* mouseenter / mouseleave on the container *)
  resizeListener : bool;            (* resize on window *)
  timers : list Timer;              (* pending setTimeout callbacks, oldest first *)
  containerWidth : Z;               (* containerRef.current.offsetWidth *)
  nextRef : nat;                    (* next unused array identity *)
  measured : list (list Z * bool);  (* ghost: per run of the measuring effect,
                                       the child widths read and whether
                                       cloneCount was reached *)
  commits : list (list ReactNode)   (* ghost: the rendered list at each commit *)
}.

Definition layoutRuns (s : State) : nat := length (measured s).

Definition cloneRuns (s : State) : nat :=
  length (filter (fun m => snd m) (measured s)).

Definition setTweens (ts : list Tween) (r : option nat) (s : State) : State :=
  {| mounted := mounted s; props := props s; clonedItems := clonedItems s;
     tweenRef := r; tweens := ts;
     hoverListeners := hoverListeners s; resizeListener := resizeListener s;
     timers := timers s; containerWidth := containerWidth s;
     nextRef := nextRef s; measured := measured s;
     commits := commits s |}.

Definition setHover (b : bool) (s : State) : State :=
  {| mounted := mounted s; props := props s; clonedItems := clonedItems s;
     tweenRef := tweenRef s; tweens := tweens s;
     hoverListeners := b; resizeListener := resizeListener s;
     timers := timers s; containerWidth := containerWidth s;
     nextRef := nextRef s; measured := measured s;
     commits := commits s |}.

Definition setResizeListener (b : bool) (s : State) : State :=
  {| mounted := mounted s; props := props s; clonedItems := clonedItems s;
     tweenRef := tweenRef s; tweens := tweens s;
     hoverListeners := hoverListeners s; resizeListener := b;
     timers := timers s; containerWidth := containerWidth s;
     nextRef := nextRef s; measured := measured s;
     commits := commits s |}.

Definition setTimers (ts : list Timer) (s : State) : State :=
  {| mounted := mounted s; props := props s; clonedItems := clonedItems s;
     tweenRef := tweenRef s; tweens := tweens s;
     hoverListeners := hoverListeners s; resizeListener := resizeListener s;
     timers := ts; containerWidth := containerWidth s;
     nextRef := nextRef s; measured := measured s;
     commits := commits s |}.

Definition setContainerWidth (w : Z) (s : State) : State :=
  {| mounted := mounted s; props := props s; clonedItems := clonedItems s;
     tweenRef := tweenRef s; tweens := tweens s;
     hoverListeners := hoverListeners s; resizeListener := resizeListener s;
     timers := timers s; containerWidth := w;
     nextRef := nextRef s; measured := measured s;
     commits := commits s |}.

Definition setMounted (b : bool) (s : State) : State :=
  {| mounted := b; props := props s; clonedItems := clonedItems s;
     tweenRef := tweenRef s; tweens := tweens s;
     hoverListeners := hoverListeners s; resizeListener := resizeListener s;
     timers := timers s; containerWidth := containerWidth s;
     nextRef := nextRef s; measured := measured s;
     commits := commits s |}.

(** A new array is allocated and gets the identity [nextRef s]. *)
Definition takeRef (s : State) : State :=
  {| mounted := mounted s; props := props s; clonedItems := clonedItems s;
     tweenRef := tweenRef s; tweens := tweens s;
     hoverListeners := hoverListeners s; resizeListener := resizeListener s;
     timers := timers s; containerWidth := containerWidth s;
     nextRef := S (nextRef s); measured := measured s;
     commits := commits s |}.

(** A render with props [p] and state [c] is committed: the wrapper now
    shows [elems c]. *)
Definition commitRender (p : Props) (c : JsArray ReactNode) (s : State) : State :=
  {| mounted := mounted s; props := p; clonedItems := c;
     tweenRef := tweenRef s; tweens := tweens s;
     hoverListeners := hoverListeners s; resizeListener := resizeListener s;
     timers := timers s; containerWidth := containerWidth s;
     nextRef := nextRef s; measured := measured s;
     commits := commits s ++ [elems c] |}.

(** Ghost bookkeeping of the measuring effect; [alloc] array identities
    are taken. *)
Definition noteLayout (ws : list Z) (cloned : bool) (alloc : nat) (s : State) : State :=
  {| mounted := mounted s; props := props s; clonedItems := clonedItems s;
     tweenRef := tweenRef s; tweens := tweens s;
     hoverListeners := hoverListeners s; resizeListener := resizeListener s;
     timers := timers s; containerWidth := containerWidth s;
     nextRef := (nextRef s + alloc)%nat;
     measured := measured s ++ [(ws, cloned)];
     commits := commits s |}.

(** [if (tweenRef.current) { tweenRef.current.kill(); tweenRef.current = null; }] *)
Definition killAndClear (s : State) : State :=
  match tweenRef s with
  | Some i => setTweens (Gsap.onTween Gsap.kill i (tweens s)) None s
  | None => s
  end.

(** [if (tweenRef.current) tweenRef.current.kill();] of the second listing. *)
Definition killOnly (s : State) : State :=
  match tweenRef s with
  | Some i => setTweens (Gsap.onTween Gsap.kill i (tweens s)) (Some i) s
  | None => s
  end.

(** [tweenRef.current = gsap.to(wrapper, vars)] *)
Definition gsapTo (v : TweenVars) (s : State) : State :=
  setTweens (tweens s ++ [Gsap.fresh v]) (Some (length (tweens s))) s.

(** The widths of the children of the wrapper, as [Array.from(children)]
    followed by [el.offsetWidth] reads them. *)
Definition childWidths (s : State) : list Z :=
  map offsetWidthOf (elems (clonedItems s)).

(** Step 1, the measuring effect ([useLayoutEffect], dependencies
    [items] and [gap]).  The second component is the argument of
    [setClonedItems], when it is called. *)
Definition layoutEffect (s : State) : State * option (JsArray ReactNode) :=
  if negb (mounted s) then (s, None)
  else
    let s1 := killAndClear s in
    let ws := childWidths s in
    let totalWidth := Measure.measureTotalWidth (gap (options (props s))) ws in
    if Measure.skipCloning totalWidth ws
    then (noteLayout ws false 0 s1, Some (items (props s)))
    else
      let count := Measure.cloneCount (containerWidth s) totalWidth in
      let repeated :=
        {| ref := nextRef s;
           elems := Measure.repeatItems count (elems (items (props s))) |} in
      (noteLayout ws true 1 s1, Some repeated).

(** Step 2, the animation effect ([useEffect], dependencies
    [clonedItems], [speed] and [direction]). *)
Definition animationEffect (s : State) : State :=
  if negb (mounted s) then s
  else if (length (elems (clonedItems s)) =? 0)%nat then s
  else
    let s1 := match listing with
              | FullScroll => killAndClear s
              | ScrollMinusContainer => killOnly s
              end in
    let totalWidth :=
      scrollWidthOf (elems (clonedItems s)) (gap (options (props s))) in
    gsapTo (Animate.tweenVars listing (direction (options (props s)))
              totalWidth (containerWidth s) (speed (options (props s)))) s1.

(** Step 3, the hover effect ([useEffect], dependency [pauseOnHover])
    and its cleanup. *)
Definition hoverEffect (s : State) : State :=
  if negb (pauseOnHover (options (props s))) || negb (mounted s) then s
  else setHover true s.

Definition hoverCleanup (s : State) : State := setHover false s.

Definition handleMouseEnter (s : State) : State :=
  match tweenRef s with
  | Some i => setTweens (Gsap.onTween Gsap.pause i (tweens s)) (tweenRef s) s
  | None => s
  end.

Definition handleMouseLeave (s : State) : State :=
  match tweenRef s with
  | Some i => setTweens (Gsap.onTween Gsap.resume i (tweens s)) (tweenRef s) s
  | None => s
  end.

(** Dependency arrays are compared element by element with [Object.is]:
    arrays by identity, numbers by value. *)
Definition layoutDepsChanged (p p' : Props) : bool :=
  negb ((ref (items p) =? ref (items p'))%nat
        && (gap (options p) =? gap (options p'))).

Definition animDepsChanged (p : Props) (c : JsArray ReactNode)
    (p' : Props) (c' : JsArray ReactNode) : bool :=
  negb ((ref c =? ref c')%nat
        && Qeq_bool (speed (options p)) (speed (options p'))
        && direction_eqb (direction (options p)) (direction (options p'))).

Definition hoverDepsChanged (p p' : Props) : bool :=
  negb (eqb (pauseOnHover (options p)) (pauseOnHover (options p'))).

(** One render of the component with props [p'] and state [c'], its
    commit, and the effects whose dependencies changed since the render
    before ([first]: there is none, every effect runs).  The second
    component is the state update the measuring effect asked for. *)
Definition passEffects (first : bool) (p' : Props) (c' : JsArray ReactNode)
    (s : State) : State * option (JsArray ReactNode) :=
  let prevP := props s in
  let prevC := clonedItems s in
  let s0 := commitRender p' c' s in
  let lay := if first || layoutDepsChanged prevP p'
             then layoutEffect s0 else (s0, None) in
  let s1 := fst lay in
  let s2 := if first || animDepsChanged prevP prevC p' c'
            then animationEffect s1 else s1 in
  let s3 := if first then hoverEffect s2
            else if hoverDepsChanged prevP p'
                 then hoverEffect (hoverCleanup s2) else s2 in
  let s4 := if first then setResizeListener true s3 else s3 in
  (s4, snd lay).

(** Renders follow one another while the measuring effect updates the
    state.  The passive effects of a commit run before the render caused
    by that update starts; an update with the array already in the state
    is dropped. *)
Fixpoint renderPass (fuel : nat) (first : bool) (p' : Props)
    (c' : JsArray ReactNode) (s : State) : State :=
  match fuel with
  | O => s
  | S fuel' =>
      let r := passEffects first p' c' s in
      match snd r with
      | Some a =>
          if (ref a =? ref c')%nat then fst r
          else renderPass fuel' false p' a (fst r)
      | None => fst r
      end
  end.

(** The component is mounted in a container [w] pixels wide. *)
Definition mount (w : Z) (l : list ReactNode) (o : Options) : State :=
  let p := {| items := {| ref := 1; elems := l |}; options := o |} in
  let c := {| ref := 0; elems := [] |} in
  renderPass maxUpdateDepth true p c
    {| mounted := true; props := p; clonedItems := c;
       tweenRef := None; tweens := [];
       hoverListeners := false; resizeListener := false;
       timers := []; containerWidth := w; nextRef := 2;
       measured := []; commits := [] |}.

(** [setClonedItems([])] from a handler: a new array, so a render. *)
Definition clearClonedItems (s : State) : State :=
  if mounted s
  then renderPass maxUpdateDepth false (props s)
         {| ref := nextRef s; elems := [] |}
         (takeRef s)
  else s.

(** Step 4, the [resize] listener of the listing. *)
Definition handleResize (s : State) : State :=
  match listing with
  | FullScroll =>
      let s1 := clearClonedItems s in
      setTimers (timers s1
                   ++ [{| remaining := 50; action := DispatchResizeTrigger |}]) s1
  | ScrollMinusContainer =>
      setTimers (filter (fun t => negb (isClear t)) (timers s)
                   ++ [{| remaining := 100; action := ClearClonedItems |}]) s
  end.

Definition fireTimer (s : State) (a : TimerAction) : State :=
  match a with
  | DispatchResizeTrigger => s
  | ClearClonedItems => clearClonedItems s
  end.

(** [ms] milliseconds pass: running tweens move on, due timers fire in
    the order they were set (all delays of a listing are equal, so this is
    the order they fall due). *)
Definition elapse (ms : nat) (s : State) : State :=
  let due := filter (fun t => (remaining t <=? ms)%nat) (timers s) in
  let later := filter (fun t => negb (remaining t <=? ms)%nat) (timers s) in
  let waiting :=
    map (fun t => {| remaining := (remaining t - ms)%nat; action := action t |})
      later in
  let s1 := setTimers waiting
              (setTweens (map (Gsap.advance ms) (tweens s)) (tweenRef s) s) in
  fold_left fireTimer (map action due) s1.

(** The cleanups of the hover and resize effects run and the refs are
    cleared; the measuring and animation effects return no cleanup. *)
Definition unmount (s : State) : State :=
  setMounted false (setResizeListener false (hoverCleanup s)).

(** The parent renders the component again: with a new [items] array
    ([Some l]) or with the array of the last render ([None]). *)
Definition update (l : option (list ReactNode)) (o : Options) (s : State) : State :=
  match l with
  | Some l' =>
      renderPass maxUpdateDepth false
        {| items := {| ref := nextRef s; elems := l' |}; options := o |}
        (clonedItems s)
        (takeRef s)
  | None =>
      renderPass maxUpdateDepth false
        {| items := items (props s); options := o |} (clonedItems s) s
  end.

Inductive Event : Type :=
  | Update (l : option (list ReactNode)) (o : Options)
  | Resize (w : Z)     (* the window is resized; the container is now [w] wide *)
  | Elapse (ms : nat)
  | MouseEnter
  | MouseLeave
  | Unmount.

Definition step (s : State) (e : Event) : State :=
  match e with
  | Update l o => if mounted s then update l o s else s
  | Resize w =>
      let s' := setContainerWidth w s in
      if resizeListener s then handleResize s' else s'
  | Elapse ms => elapse ms s
  | MouseEnter => if hoverListeners s then handleMouseEnter s else s
  | MouseLeave => if hoverListeners s then handleMouseLeave s else s
  | Unmount => if mounted s then unmount s else s
  end.

Definition run (s : State) (es : list Event) : State := fold_left step es s.



(** ** Invariants of the component *)

(** The items the component is given by an update. *)
Definition nextItems (l : option (list ReactNode)) (s : State) : list ReactNode :=
  match l with
  | Some l' => l'
  | None => elems (items (props s))
  end.

(** Does the event make the measuring effect run?  Only an update that
    brings a new [items] array or another [gap]. *)
Definition remeasures (s : State) (e : Event) : bool :=
  match e with
  | Update l o =>
      mounted s
      && (match l with Some _ => true | None => false end
          || negb (gap (options (props s)) =? gap o))
  | _ => false
  end.

Definition isActive (t : Tween) : bool := negb (killed t).

Definition activeTweens (s : State) : list Tween := filter isActive (tweens s).

(** A tween that was not killed is the last one created and is the one
    [tweenRef] holds; and [tweenRef] holds a tween that was not killed. *)
Definition tweenOwned (s : State) : Prop :=
  (forall i t, nth_error (tweens s) i = Some t -> killed t = false ->
     tweenRef s = Some i /\ S i = length (tweens s))
  /\ (forall i, tweenRef s = Some i ->
       exists t, nth_error (tweens s) i = Some t /\ killed t = false).

Definition allKilled (ts : list Tween) : Prop :=
  forall i t, nth_error ts i = Some t -> killed t = true.

(** Array identities in use are below [nextRef], and the state holds the
    identity of [items] only when it holds [items] itself. *)
Definition refsFresh (s : State) : Prop :=
  (ref (clonedItems s) < nextRef s)%nat
  /\ (ref (items (props s)) < nextRef s)%nat
  /\ (ref (clonedItems s) = ref (items (props s)) ->
      clonedItems s = items (props s)).

Definition listenersOK (s : State) : Prop :=
  hoverListeners s = mounted s && pauseOnHover (options (props s))
  /\ resizeListener s = mounted s.

Definition Inv (s : State) : Prop :=
  tweenOwned s /\ refsFresh s /\ listenersOK s.

(** [s'] differs from [s] at most in the rendered list, the timers and
    the ghost history of commits. *)
Definition sameButList (s s' : State) : Prop :=
  tweens s' = tweens s /\ tweenRef s' = tweenRef s
  /\ hoverListeners s' = hoverListeners s
  /\ resizeListener s' = resizeListener s
  /\ mounted s' = mounted s /\ props s' = props s
  /\ containerWidth s' = containerWidth s
  /\ measured s' = measured s.

(** The state after an update that leaves [items] and [gap] alone and
    changes what the animation effect depends on: the animation effect
    runs on the commit, then the hover effect where [pauseOnHover]
    changed. *)
Definition hoverOrSame (o : Options) (s : State) : State :=
  let p' := {| items := items (props s); options := o |} in
  let s2 := animationEffect (commitRender p' (clonedItems s) s) in
  if hoverDepsChanged (props s) p' then hoverEffect (hoverCleanup s2) else s2.

(** ** Properties of the measuring loop and of the clone count *)

Lemma forEachWidth_suffix (len gap : Z) (ws : list Z) :
  forall i acc,
    len = i + Z.of_nat (length ws) ->
    Measure.forEachWidth len gap i ws acc
    = acc + Measure.sumWidths ws + gap * Z.max 0 (Z.of_nat (length ws) - 1).
Proof.
  induction ws as [|w rest IH]; intros i acc Hlen.
  - simpl. lia.
  - cbn [Measure.forEachWidth Measure.sumWidths fold_right length] in *.
    rewrite IH by lia.
    fold (Measure.sumWidths rest).
    replace (Z.max 0 (Z.of_nat (S (length rest)) - 1))
      with (Z.of_nat (length rest)) by lia.
    destruct rest as [|w' rest'].
    + cbn [length] in *. destruct (Z.ltb_spec i (len - 1)); cbn; lia.
    + replace (Z.max 0 (Z.of_nat (length (w' :: rest')) - 1))
        with (Z.of_nat (length (w' :: rest')) - 1) by (cbn [length]; lia).
      cbn [length] in *. destruct (Z.ltb_spec i (len - 1)); nia.
Qed.

Lemma measureTotalWidth_closed (gap : Z) (ws : list Z) :
  Measure.measureTotalWidth gap ws
  = Measure.sumWidths ws + gap * Z.max 0 (Z.of_nat (length ws) - 1).
Proof.
  unfold Measure.measureTotalWidth.
  rewrite forEachWidth_suffix by lia. lia.
Qed.

Lemma measureTotalWidth_nil (gap : Z) : Measure.measureTotalWidth gap [] = 0.
Proof. reflexivity. Qed.

Lemma sumWidths_app (a b : list Z) :
  Measure.sumWidths (a ++ b) = Measure.sumWidths a + Measure.sumWidths b.
Proof.
  induction a as [|w a IH]; cbn [app Measure.sumWidths fold_right] in *.
  - reflexivity.
  - fold (Measure.sumWidths (a ++ b)). fold (Measure.sumWidths a). lia.
Qed.

Lemma sumWidths_copies {A : Type} (f : A -> Z) (l : list A) (n : nat) :
  Measure.sumWidths (map f (concat (repeat l n)))
  = Z.of_nat n * Measure.sumWidths (map f l).
Proof.
  induction n as [|n IH].
  - reflexivity.
  - cbn [repeat concat]. rewrite map_app, sumWidths_app, IH. lia.
Qed.

Lemma length_copies {A : Type} (l : list A) (n : nat) :
  length (concat (repeat l n)) = (n * length l)%nat.
Proof.
  induction n as [|n IH]; cbn [repeat concat]; [reflexivity|].
  rewrite length_app, IH. reflexivity.
Qed.

(** The strip made of [count] copies measures [count] times one copy plus
    the gaps between consecutive copies. *)
Lemma measure_copies {A : Type} (f : A -> Z) (gap count : Z) (l : list A) :
  l <> [] -> 1 <= count ->
  Measure.measureTotalWidth gap (map f (Measure.repeatItems count l))
  = count * Measure.measureTotalWidth gap (map f l) + (count - 1) * gap.
Proof.
  intros Hl Hc. unfold Measure.repeatItems.
  rewrite !measureTotalWidth_closed, sumWidths_copies, !length_map, length_copies.
  assert (0 < length l)%nat by (destruct l; [congruence | cbn; lia]).
  rewrite Nat2Z.inj_mul, Z2Nat.id by lia.
  set (len := Z.of_nat (length l)) in *.
  assert (1 <= len) by lia.
  rewrite (Z.max_r 0 (len - 1)) by lia.
  rewrite (Z.max_r 0 (count * len - 1)) by nia.
  ring.
Qed.

(** The quotient of [Math.ceil], in integer arithmetic. *)
Lemma ceiling_quotient (a b : Z) :
  0 < b -> Qceiling (inject_Z a / inject_Z b)%Q = - ((- a) / b).
Proof.
  intros Hb. destruct b as [|p|p]; try lia.
  unfold Qceiling, Qfloor, Qdiv, Qmult, Qinv, Qopp, inject_Z. cbn.
  rewrite Z.mul_1_r. reflexivity.
Qed.

Lemma cloneCount_covers (w tw : Z) :
  0 < tw ->
  w <= (Measure.cloneCount w tw - 2) * tw
  /\ (Measure.cloneCount w tw - 3) * tw < w.
Proof.
  intros Htw. unfold Measure.cloneCount.
  rewrite ceiling_quotient by assumption.
  pose proof (Z.div_mod (- w) tw ltac:(lia)) as Hdm.
  pose proof (Z.mod_pos_bound (- w) tw Htw) as Hb.
  nia.
Qed.

Lemma cloneCount_ge_2 (w tw : Z) :
  0 < tw -> 0 <= w -> 2 <= Measure.cloneCount w tw.
Proof.
  intros Htw Hw. pose proof (cloneCount_covers w tw Htw). nia.
Qed.

(** ** The tween list *)

Lemma length_onTween (f : Tween -> Tween) (ts : list Tween) :
  forall i, length (Gsap.onTween f i ts) = length ts.
Proof.
  induction ts as [|t ts IH]; intros [|i]; cbn; auto.
Qed.

Lemma nth_error_onTween_same (f : Tween -> Tween) (ts : list Tween) :
  forall i t, nth_error ts i = Some t ->
    nth_error (Gsap.onTween f i ts) i = Some (f t).
Proof.
  induction ts as [|a ts IH]; intros [|i] t H; cbn in *; try discriminate.
  - congruence.
  - auto.
Qed.

Lemma nth_error_onTween_other (f : Tween -> Tween) (ts : list Tween) :
  forall i j, i <> j ->
    nth_error (Gsap.onTween f i ts) j = nth_error ts j.
Proof.
  induction ts as [|a ts IH]; intros [|i] [|j] H; cbn; auto; congruence.
Qed.

Lemma nth_error_onTween_inv (f : Tween -> Tween) (ts : list Tween) i j t' :
  nth_error (Gsap.onTween f i ts) j = Some t' ->
  exists t, nth_error ts j = Some t /\ (t' = t \/ (i = j /\ t' = f t)).
Proof.
  intros H. destruct (Nat.eq_dec i j) as [->|Hne].
  - destruct (nth_error ts j) as [t|] eqn:E.
    + rewrite (nth_error_onTween_same f ts j t E) in H.
      exists t. split; [reflexivity|]. right. split; congruence.
    + apply nth_error_None in E.
      assert (nth_error (Gsap.onTween f j ts) j = None)
        by (apply nth_error_None; rewrite length_onTween; exact E).
      congruence.
  - rewrite nth_error_onTween_other in H by assumption.
    exists t'. auto.
Qed.

Lemma allKilled_owned (s : State) :
  allKilled (tweens s) -> tweenRef s = None -> tweenOwned s.
Proof.
  intros Hk Hr. split.
  - intros i t Hn Hf. rewrite (Hk i t Hn) in Hf. discriminate.
  - intros i Hi. congruence.
Qed.

Lemma owned_kill_all (s : State) (i : nat) :
  tweenOwned s -> tweenRef s = Some i ->
  allKilled (Gsap.onTween Gsap.kill i (tweens s)).
Proof.
  intros [Hown _] Hr j t' Hn.
  destruct (nth_error_onTween_inv _ _ _ _ _ Hn) as (t & Ht & [->|[-> ->]]).
  - destruct (killed t) eqn:Hk; [reflexivity|].
    destruct (Hown j t Ht Hk) as [Hj _].
    assert (i = j) by congruence. subst j.
    rewrite (nth_error_onTween_same _ _ _ _ Ht) in Hn.
    injection Hn as Heq. rewrite <- Heq in Hk. discriminate.
  - reflexivity.
Qed.

Lemma owned_none_all (s : State) :
  tweenOwned s -> tweenRef s = None -> allKilled (tweens s).
Proof.
  intros [Hown _] Hr i t Hn.
  destruct (killed t) eqn:Hk; [reflexivity|].
  destruct (Hown i t Hn Hk) as [Hi _]. congruence.
Qed.

Lemma allKilled_append_fresh (ts : list Tween) (v : TweenVars) (s : State) :
  allKilled ts ->
  tweens s = ts ++ [Gsap.fresh v] -> tweenRef s = Some (length ts) ->
  tweenOwned s.
Proof.
  intros Hk Hts Hr. split.
  - intros i t Hn Hf. rewrite Hts in Hn.
    destruct (Nat.lt_ge_cases i (length ts)) as [Hlt|Hge].
    + rewrite nth_error_app1 in Hn by assumption.
      rewrite (Hk i t Hn) in Hf. discriminate.
    + rewrite nth_error_app2 in Hn by assumption.
      destruct (i - length ts)%nat as [|k] eqn:E; cbn in Hn.
      * assert (i = length ts) by lia. subst i.
        rewrite Hts, length_app. cbn. split; [assumption | lia].
      * destruct k; discriminate.
  - intros i Hi. rewrite Hr in Hi. injection Hi as <-.
    exists (Gsap.fresh v). rewrite Hts, nth_error_app2, Nat.sub_diag by lia.
    split; reflexivity.
Qed.

Lemma tweenOwned_ext (s s' : State) :
  tweens s' = tweens s -> tweenRef s' = tweenRef s ->
  tweenOwned s -> tweenOwned s'.
Proof.
  unfold tweenOwned. intros -> ->. auto.
Qed.

Lemma killAndClear_all (s : State) :
  tweenOwned s ->
  allKilled (tweens (killAndClear s)) /\ tweenRef (killAndClear s) = None.
Proof.
  intros Hown. unfold killAndClear.
  destruct (tweenRef s) as [i|] eqn:Hr; cbn.
  - split; [apply owned_kill_all; assumption | reflexivity].
  - split; [apply owned_none_all; assumption | assumption].
Qed.

Lemma killOnly_all (s : State) :
  tweenOwned s -> allKilled (tweens (killOnly s)).
Proof.
  intros Hown. unfold killOnly.
  destruct (tweenRef s) as [i|] eqn:Hr; cbn.
  - apply owned_kill_all; assumption.
  - apply owned_none_all; assumption.
Qed.

Lemma length_killAndClear (s : State) :
  length (tweens (killAndClear s)) = length (tweens s).
Proof.
  unfold killAndClear. destruct (tweenRef s); cbn; [apply length_onTween | reflexivity].
Qed.

Lemma length_killOnly (s : State) :
  length (tweens (killOnly s)) = length (tweens s).
Proof.
  unfold killOnly. destruct (tweenRef s); cbn; [apply length_onTween | reflexivity].
Qed.

(** ** What each effect leaves alone *)

Ltac unfold_effects :=
  unfold layoutEffect, animationEffect, hoverEffect, hoverCleanup,
    handleMouseEnter, handleMouseLeave, killAndClear, killOnly, gsapTo,
    noteLayout, commitRender, setTweens, setHover, setResizeListener,
    setTimers, setContainerWidth, setMounted, takeRef.

Ltac split_matches :=
  repeat match goal with
         | |- context [match ?c with _ => _ end] => destruct c eqn:?
         | |- context [if ?c then _ else _] => destruct c eqn:?
         end.

Ltac frame := cbv zeta; intros; unfold_effects; cbv zeta; split_matches; cbn; auto.

Lemma layoutEffect_frame (s : State) :
  let s' := fst (layoutEffect s) in
  mounted s' = mounted s /\ props s' = props s
  /\ clonedItems s' = clonedItems s
  /\ hoverListeners s' = hoverListeners s
  /\ resizeListener s' = resizeListener s
  /\ timers s' = timers s /\ containerWidth s' = containerWidth s
  /\ commits s' = commits s.
Proof. frame; repeat split; reflexivity. Qed.

Lemma animationEffect_frame (s : State) :
  let s' := animationEffect s in
  mounted s' = mounted s /\ props s' = props s
  /\ clonedItems s' = clonedItems s
  /\ hoverListeners s' = hoverListeners s
  /\ resizeListener s' = resizeListener s
  /\ timers s' = timers s /\ containerWidth s' = containerWidth s
  /\ commits s' = commits s /\ nextRef s' = nextRef s
  /\ measured s' = measured s.
Proof. frame; repeat split; reflexivity. Qed.

Lemma hoverEffect_frame (s : State) :
  let s' := hoverEffect s in
  mounted s' = mounted s /\ props s' = props s
  /\ clonedItems s' = clonedItems s
  /\ tweens s' = tweens s /\ tweenRef s' = tweenRef s
  /\ resizeListener s' = resizeListener s
  /\ timers s' = timers s /\ containerWidth s' = containerWidth s
  /\ commits s' = commits s /\ nextRef s' = nextRef s
  /\ measured s' = measured s.
Proof. frame; repeat split; reflexivity. Qed.

Lemma tweenOwned_layoutEffect (s : State) :
  tweenOwned s -> tweenOwned (fst (layoutEffect s)).
Proof.
  intros Hown. unfold layoutEffect.
  destruct (mounted s); cbn [negb]; [|exact Hown].
  destruct (killAndClear_all s Hown) as [Hall Hnone].
  destruct (Measure.skipCloning _ _); cbn [fst];
    apply allKilled_owned; cbn; assumption.
Qed.

Lemma tweenOwned_animationEffect (s : State) :
  tweenOwned s -> tweenOwned (animationEffect s).
Proof.
  intros Hown. unfold animationEffect.
  destruct (mounted s); cbn [negb]; [|exact Hown].
  destruct (length (elems (clonedItems s)) =? 0)%nat; [exact Hown|].
  destruct listing.
  - eapply allKilled_append_fresh;
      [apply (killAndClear_all s Hown) | reflexivity | reflexivity].
  - eapply allKilled_append_fresh;
      [apply (killOnly_all s Hown) | reflexivity | reflexivity].
Qed.

(** What a pass does to the tweens, the refs and the listeners. *)

Lemma passEffects_frame (first : bool) (p' : Props) (c' : JsArray ReactNode)
    (s : State) :
  let s' := fst (passEffects first p' c' s) in
  mounted s' = mounted s /\ props s' = p' /\ clonedItems s' = c'
  /\ timers s' = timers s /\ containerWidth s' = containerWidth s
  /\ commits s' = commits s ++ [elems c'].
Proof.
  unfold passEffects. cbn [fst].
  set (s0 := commitRender p' c' s).
  set (lay := if first || layoutDepsChanged (props s) p'
              then layoutEffect s0 else (s0, None)).
  assert (Hlay : mounted (fst lay) = mounted s /\ props (fst lay) = p'
                 /\ clonedItems (fst lay) = c'
                 /\ timers (fst lay) = timers s
                 /\ containerWidth (fst lay) = containerWidth s
                 /\ commits (fst lay) = commits s ++ [elems c']).
  { subst lay. destruct (first || layoutDepsChanged (props s) p').
    - pose proof (layoutEffect_frame s0) as H. cbn zeta in H.
      destruct H as (-> & -> & -> & _ & _ & -> & -> & ->).
      repeat split; reflexivity.
    - repeat split; reflexivity. }
  set (s2 := if first || animDepsChanged (props s) (clonedItems s) p' c'
             then animationEffect (fst lay) else fst lay).
  assert (Hs2 : mounted s2 = mounted s /\ props s2 = p'
                /\ clonedItems s2 = c'
                /\ timers s2 = timers s
                /\ containerWidth s2 = containerWidth s
                /\ commits s2 = commits s ++ [elems c']).
  { subst s2. destruct (first || animDepsChanged _ _ _ _); [|exact Hlay].
    pose proof (animationEffect_frame (fst lay)) as H. cbn zeta in H.
    destruct H as (-> & -> & -> & _ & _ & -> & -> & -> & _). exact Hlay. }
  clearbody s2. clear Hlay.
  destruct Hs2 as (M & P & C & T & W & K).
  destruct first; [|destruct (hoverDepsChanged (props s) p')]; cbn -[hoverEffect].
  - pose proof (hoverEffect_frame s2) as H. cbn zeta in H.
    destruct H as (-> & -> & -> & _ & _ & _ & -> & -> & -> & _). auto 10.
  - pose proof (hoverEffect_frame (hoverCleanup s2)) as H. cbn zeta in H.
    destruct H as (-> & -> & -> & _ & _ & _ & -> & -> & -> & _). cbn. auto 10.
  - auto 10.
Qed.

Lemma tweenOwned_passEffects (first : bool) (p' : Props)
    (c' : JsArray ReactNode) (s : State) :
  tweenOwned s -> tweenOwned (fst (passEffects first p' c' s)).
Proof.
  intros Hown. unfold passEffects. cbn [fst].
  set (s0 := commitRender p' c' s).
  assert (H0 : tweenOwned s0) by (apply (tweenOwned_ext s); auto).
  set (lay := if first || layoutDepsChanged (props s) p'
              then layoutEffect s0 else (s0, None)).
  assert (H1 : tweenOwned (fst lay)).
  { subst lay. destruct (first || layoutDepsChanged (props s) p');
      [apply tweenOwned_layoutEffect|]; assumption. }
  set (s2 := if first || animDepsChanged (props s) (clonedItems s) p' c'
             then animationEffect (fst lay) else fst lay).
  assert (H2 : tweenOwned s2).
  { subst s2. destruct (first || animDepsChanged _ _ _ _);
      [apply tweenOwned_animationEffect|]; assumption. }
  clearbody s2.
  destruct first; [|destruct (hoverDepsChanged (props s) p')];
    try assumption.
  - apply (tweenOwned_ext (hoverEffect s2)); [reflexivity | reflexivity |].
    apply (tweenOwned_ext s2); [apply hoverEffect_frame .. | assumption].
  - apply (tweenOwned_ext (hoverCleanup s2));
      [apply hoverEffect_frame .. |].
    apply (tweenOwned_ext s2); [reflexivity | reflexivity | assumption].
Qed.

Lemma hoverEffect_listeners (s : State) :
  mounted s = true ->
  hoverListeners (hoverEffect (hoverCleanup s)) = pauseOnHover (options (props s)).
Proof.
  intros Hm. unfold hoverEffect, hoverCleanup. cbn. rewrite Hm.
  destruct (pauseOnHover (options (props s))); reflexivity.
Qed.

Lemma listeners_passEffects (first : bool) (p' : Props)
    (c' : JsArray ReactNode) (s : State) :
  mounted s = true ->
  (if first then hoverListeners s = false else listenersOK s) ->
  listenersOK (fst (passEffects first p' c' s)).
Proof.
  intros Hm Hpre.
  pose proof (passEffects_frame first p' c' s) as Hf. cbn zeta in Hf.
  destruct Hf as (M & P & _).
  unfold listenersOK. rewrite M, P, Hm. cbn [andb].
  clear M P. unfold passEffects. cbn [fst].
  set (s0 := commitRender p' c' s).
  set (lay := if first || layoutDepsChanged (props s) p'
              then layoutEffect s0 else (s0, None)).
  assert (Hlay : mounted (fst lay) = true /\ props (fst lay) = p'
                 /\ hoverListeners (fst lay) = hoverListeners s
                 /\ resizeListener (fst lay) = resizeListener s).
  { subst lay. destruct (first || layoutDepsChanged (props s) p').
    - pose proof (layoutEffect_frame s0) as H. cbn zeta in H.
      destruct H as (-> & -> & _ & -> & -> & _). auto.
    - auto. }
  set (s2 := if first || animDepsChanged (props s) (clonedItems s) p' c'
             then animationEffect (fst lay) else fst lay).
  assert (Hs2 : mounted s2 = true /\ props s2 = p'
                /\ hoverListeners s2 = hoverListeners s
                /\ resizeListener s2 = resizeListener s).
  { subst s2. destruct (first || animDepsChanged _ _ _ _); [|exact Hlay].
    pose proof (animationEffect_frame (fst lay)) as H. cbn zeta in H.
    destruct H as (-> & -> & _ & -> & -> & _). exact Hlay. }
  clearbody s2. clear Hlay. destruct Hs2 as (M & P & H & R).
  destruct first.
  - split; [|reflexivity]. cbn [resizeListener setResizeListener hoverListeners].
    unfold hoverEffect. rewrite M, P.
    destruct (pauseOnHover (options p')); cbn; [reflexivity|].
    rewrite H. exact Hpre.
  - destruct Hpre as [Hh Hr]. rewrite Hm in Hh, Hr. cbn [andb] in Hh.
    unfold hoverDepsChanged.
    destruct (eqb (pauseOnHover (options (props s)))
                (pauseOnHover (options p'))) eqn:E; cbn [negb].
    + apply eqb_prop in E. split; congruence.
    + split.
      * rewrite <- P. apply hoverEffect_listeners. assumption.
      * pose proof (hoverEffect_frame (hoverCleanup s2)) as F. cbn zeta in F.
        destruct F as (_ & _ & _ & _ & _ & -> & _). cbn. congruence.
Qed.

(** The state update asked for by the measuring effect: the [items] array
    itself, or a new array. *)
Lemma layoutEffect_pending (s : State) :
  (snd (layoutEffect s) = None
   /\ nextRef (fst (layoutEffect s)) = nextRef s)
  \/ (snd (layoutEffect s) = Some (items (props s))
      /\ nextRef (fst (layoutEffect s)) = nextRef s)
  \/ (exists a, snd (layoutEffect s) = Some a /\ ref a = nextRef s
                /\ nextRef (fst (layoutEffect s)) = S (nextRef s)).
Proof.
  unfold layoutEffect.
  destruct (mounted s); cbn [negb]; [|left; auto].
  destruct (Measure.skipCloning _ _); cbn [fst snd].
  - right. left. split; [reflexivity|].
    unfold noteLayout, killAndClear. destruct (tweenRef s); cbn; lia.
  - right. right. eexists. split; [reflexivity|]. split; [reflexivity|].
    unfold noteLayout, killAndClear. destruct (tweenRef s); cbn; lia.
Qed.

Lemma refsFresh_passEffects (first : bool) (p' : Props)
    (c' : JsArray ReactNode) (s : State) :
  (ref c' < nextRef s)%nat -> (ref (items p') < nextRef s)%nat ->
  (ref c' = ref (items p') -> c' = items p') ->
  refsFresh (fst (passEffects first p' c' s))
  /\ forall a, snd (passEffects first p' c' s) = Some a ->
       (ref a < nextRef (fst (passEffects first p' c' s)))%nat
       /\ (ref a = ref (items p') -> a = items p').
Proof.
  intros Hc Hi Heq.
  pose proof (passEffects_frame first p' c' s) as Hf. cbn zeta in Hf.
  destruct Hf as (_ & P & C & _).
  unfold refsFresh. rewrite P, C. clear P C.
  unfold passEffects. cbn [fst snd].
  set (s0 := commitRender p' c' s).
  set (lay := if first || layoutDepsChanged (props s) p'
              then layoutEffect s0 else (s0, None)).
  assert (Hlay : (nextRef s <= nextRef (fst lay))%nat
                 /\ forall a, snd lay = Some a ->
                      (ref a < nextRef (fst lay))%nat
                      /\ (ref a = ref (items p') -> a = items p')).
  { subst lay. destruct (first || layoutDepsChanged (props s) p').
    - destruct (layoutEffect_pending s0) as [[-> ->]|[[-> ->]|(a & -> & Ha & ->)]];
        cbn [nextRef commitRender s0 props].
      + split; [lia | discriminate].
      + split; [lia|]. intros a [= <-]. split; [assumption | reflexivity].
      + split; [lia|]. intros a' [= <-]. cbn in Ha. split; lia.
    - cbn. split; [lia | discriminate]. }
  destruct Hlay as [Hle Hpend].
  set (s2 := if first || animDepsChanged (props s) (clonedItems s) p' c'
             then animationEffect (fst lay) else fst lay).
  assert (Hs2 : nextRef s2 = nextRef (fst lay)).
  { subst s2. destruct (first || animDepsChanged _ _ _ _); [|reflexivity].
    apply animationEffect_frame. }
  clearbody s2.
  assert (Hs4 : nextRef
                  (if first then setResizeListener true
                     (if first then hoverEffect s2
                      else if hoverDepsChanged (props s) p'
                           then hoverEffect (hoverCleanup s2) else s2)
                   else
                     (if first then hoverEffect s2
                      else if hoverDepsChanged (props s) p'
                           then hoverEffect (hoverCleanup s2) else s2))
                = nextRef (fst lay)).
  { rewrite <- Hs2.
    destruct first; [|destruct (hoverDepsChanged (props s) p')];
      cbn [nextRef setResizeListener]; try reflexivity.
    - apply hoverEffect_frame.
    - pose proof (hoverEffect_frame (hoverCleanup s2)) as F. cbn zeta in F.
      destruct F as (_ & _ & _ & _ & _ & _ & _ & _ & _ & -> & _). reflexivity. }
  rewrite Hs4. split; [repeat split; try lia; assumption | exact Hpend].
Qed.

Lemma passEffects_inv (first : bool) (p' : Props) (c' : JsArray ReactNode)
    (s : State) :
  mounted s = true -> tweenOwned s ->
  (if first then hoverListeners s = false else listenersOK s) ->
  (ref c' < nextRef s)%nat -> (ref (items p') < nextRef s)%nat ->
  (ref c' = ref (items p') -> c' = items p') ->
  Inv (fst (passEffects first p' c' s))
  /\ mounted (fst (passEffects first p' c' s)) = true
  /\ forall a, snd (passEffects first p' c' s) = Some a ->
       (ref a < nextRef (fst (passEffects first p' c' s)))%nat
       /\ (ref a = ref (items p') -> a = items p').
Proof.
  intros Hm Hown Hl Hc Hi Heq.
  destruct (refsFresh_passEffects first p' c' s Hc Hi Heq) as [Hr Hp].
  pose proof (passEffects_frame first p' c' s) as Hf. cbn zeta in Hf.
  destruct Hf as (M & _).
  split; [|split].
  - split; [apply tweenOwned_passEffects; assumption|].
    split; [exact Hr | apply listeners_passEffects; assumption].
  - congruence.
  - exact Hp.
Qed.

Lemma renderPass_S (fuel : nat) (first : bool) (p' : Props)
    (c' : JsArray ReactNode) (s : State) :
  renderPass (S fuel) first p' c' s
  = match snd (passEffects first p' c' s) with
    | Some a =>
        if (ref a =? ref c')%nat then fst (passEffects first p' c' s)
        else renderPass fuel false p' a (fst (passEffects first p' c' s))
    | None => fst (passEffects first p' c' s)
    end.
Proof. reflexivity. Qed.

Lemma maxUpdateDepth_S : maxUpdateDepth = S 49.
Proof. reflexivity. Qed.

Lemma renderPass_inv (fuel : nat) (p' : Props) :
  forall (c' : JsArray ReactNode) (s : State),
    mounted s = true -> Inv s ->
    (ref c' < nextRef s)%nat -> (ref (items p') < nextRef s)%nat ->
    (ref c' = ref (items p') -> c' = items p') ->
    Inv (renderPass fuel false p' c' s)
    /\ mounted (renderPass fuel false p' c' s) = true.
Proof.
  induction fuel as [|fuel IH]; intros c' s Hm Hinv Hc Hi Heq.
  - cbn. auto.
  - destruct Hinv as (Hown & Hrefs & Hls).
    destruct (passEffects_inv false p' c' s Hm Hown Hls Hc Hi Heq)
      as (HI & HM & HP).
    rewrite renderPass_S.
    destruct (snd (passEffects false p' c' s)) as [a|] eqn:E; [|auto].
    destruct (ref a =? ref c')%nat; [auto|].
    destruct (HP a eq_refl) as [Ha Haeq].
    pose proof (passEffects_frame false p' c' s) as Hf. cbn zeta in Hf.
    destruct Hf as (_ & P & _).
    apply IH; try assumption.
    destruct HI as (_ & (_ & Hip & _) & _). rewrite P in Hip. exact Hip.
Qed.

Lemma renderPass_keeps_inv (fuel : nat) (p' : Props)
    (c' : JsArray ReactNode) (s : State) :
  mounted s = true -> Inv s ->
  (ref c' < nextRef s)%nat -> (ref (items p') < nextRef s)%nat ->
  (ref c' = ref (items p') -> c' = items p') ->
  Inv (renderPass fuel false p' c' s).
Proof. intros. apply renderPass_inv; assumption. Qed.

(** ** The invariant holds after mounting and after every event *)

Lemma tweenOwned_map (f : Tween -> Tween) (s s' : State) :
  (forall t, killed (f t) = killed t) ->
  tweens s' = map f (tweens s) -> tweenRef s' = tweenRef s ->
  tweenOwned s -> tweenOwned s'.
Proof.
  intros Hf Ht Hr [Hown Href]. split.
  - intros i t' Hn Hk. rewrite Ht, nth_error_map in Hn.
    destruct (nth_error (tweens s) i) as [t|] eqn:E; [|discriminate].
    injection Hn as <-. rewrite Hf in Hk.
    rewrite Hr, Ht, length_map. eauto.
  - intros i Hi. rewrite Hr in Hi. destruct (Href i Hi) as (t & Hn & Hk).
    exists (f t). rewrite Ht, nth_error_map, Hn, Hf. auto.
Qed.

Lemma tweenOwned_onTween (f : Tween -> Tween) (i : nat) (s s' : State) :
  (forall t, killed (f t) = killed t) ->
  tweens s' = Gsap.onTween f i (tweens s) -> tweenRef s' = tweenRef s ->
  tweenOwned s -> tweenOwned s'.
Proof.
  intros Hf Ht Hr [Hown Href]. split.
  - intros j t' Hn Hk. rewrite Ht in Hn.
    destruct (nth_error_onTween_inv _ _ _ _ _ Hn) as (t & Hnt & [->|[-> ->]]);
      rewrite Hr, Ht, length_onTween.
    + eauto.
    + rewrite Hf in Hk. eauto.
  - intros j Hj. rewrite Hr in Hj. destruct (Href j Hj) as (t & Hn & Hk).
    rewrite Ht. destruct (Nat.eq_dec i j) as [->|Hne].
    + exists (f t). rewrite (nth_error_onTween_same _ _ _ _ Hn), Hf. auto.
    + exists t. rewrite nth_error_onTween_other by assumption. auto.
Qed.

Lemma killed_advance (ms : nat) (t : Tween) :
  killed (Gsap.advance ms t) = killed t.
Proof. unfold Gsap.advance. destruct (Gsap.running t); reflexivity. Qed.

Lemma takeRef_inv (s : State) : Inv s -> Inv (takeRef s).
Proof.
  intros (Hown & (Hc & Hi & Heq) & Hl). split; [|split].
  - apply (tweenOwned_ext s); auto.
  - repeat split; cbn; try lia. exact Heq.
  - exact Hl.
Qed.

Lemma clearClonedItems_inv (s : State) : Inv s -> Inv (clearClonedItems s).
Proof.
  intros Hinv. unfold clearClonedItems.
  destruct (mounted s) eqn:Hm; [|exact Hinv].
  pose proof (takeRef_inv s Hinv) as Hinv'.
  destruct Hinv as (Hown & (Hc & Hi & Heq) & Hl).
  apply renderPass_keeps_inv; cbn; try lia; assumption.
Qed.

Lemma handleResize_inv (s : State) : Inv s -> Inv (handleResize s).
Proof.
  intros Hinv. unfold handleResize. destruct listing.
  - cbv zeta. apply clearClonedItems_inv in Hinv. exact Hinv.
  - exact Hinv.
Qed.

Lemma fireTimers_inv (l : list TimerAction) :
  forall s, Inv s -> Inv (fold_left fireTimer l s).
Proof.
  induction l as [|a l IH]; intros s Hinv; cbn [fold_left]; [assumption|].
  apply IH. destruct a; cbn; [assumption | apply clearClonedItems_inv; assumption].
Qed.

Lemma elapse_inv (ms : nat) (s : State) : Inv s -> Inv (elapse ms s).
Proof.
  intros (Hown & Hrefs & Hl). unfold elapse. cbv zeta.
  apply fireTimers_inv. split; [|split; assumption].
  eapply (tweenOwned_map (Gsap.advance ms) s);
    [apply killed_advance | reflexivity | reflexivity | assumption].
Qed.

Lemma update_inv (l : option (list ReactNode)) (o : Options) (s : State) :
  mounted s = true -> Inv s -> Inv (update l o s).
Proof.
  intros Hm Hinv. unfold update.
  pose proof (takeRef_inv s Hinv) as Hinv'.
  pose proof Hinv as (Hown & (Hc & Hi & Heq) & Hl).
  destruct l as [l'|].
  - apply renderPass_keeps_inv; cbn; try lia; assumption.
  - apply renderPass_keeps_inv; cbn; try lia; assumption.
Qed.

Lemma unmount_inv (s : State) : Inv s -> Inv (unmount s).
Proof.
  intros (Hown & Hrefs & Hl). split; [|split].
  - apply (tweenOwned_ext s); auto.
  - exact Hrefs.
  - split; reflexivity.
Qed.

Lemma step_inv (s : State) (e : Event) : Inv s -> Inv (step s e).
Proof.
  intros Hinv. destruct e as [l o|w|ms| | |]; cbn [step].
  - destruct (mounted s) eqn:Hm; [apply update_inv|]; assumption.
  - assert (Inv (setContainerWidth w s)) by exact Hinv.
    destruct (resizeListener s); [apply handleResize_inv|]; assumption.
  - apply elapse_inv; assumption.
  - destruct (hoverListeners s); [|assumption].
    destruct Hinv as (Hown & Hrefs & Hl).
    unfold handleMouseEnter. destruct (tweenRef s) as [i|] eqn:Hr;
      [|split; [|split]; assumption].
    split; [|split; assumption].
    eapply (tweenOwned_onTween Gsap.pause i s);
      [reflexivity | reflexivity | cbn; auto | assumption].
  - destruct (hoverListeners s); [|assumption].
    destruct Hinv as (Hown & Hrefs & Hl).
    unfold handleMouseLeave. destruct (tweenRef s) as [i|] eqn:Hr;
      [|split; [|split]; assumption].
    split; [|split; assumption].
    eapply (tweenOwned_onTween Gsap.resume i s);
      [reflexivity | reflexivity | cbn; auto | assumption].
  - destruct (mounted s); [apply unmount_inv|]; assumption.
Qed.

Lemma mount_inv (w : Z) (l : list ReactNode) (o : Options) :
  Inv (mount w l o) /\ mounted (mount w l o) = true.
Proof.
  unfold mount. rewrite maxUpdateDepth_S. cbv zeta.
  set (p := {| items := {| ref := 1; elems := l |}; options := o |}).
  set (c := {| ref := 0%nat; elems := @nil ReactNode |}).
  set (s0 := mkState true p c None [] false false [] w 2 [] []).
  assert (Hown : tweenOwned s0).
  { split; [intros [|i] t H; discriminate | intros i H; discriminate]. }
  assert (Hc : (ref c < nextRef s0)%nat) by (cbn; lia).
  assert (Hi : (ref (items p) < nextRef s0)%nat) by (cbn; lia).
  assert (Heq : ref c = ref (items p) -> c = items p) by (cbn; lia).
  destruct (passEffects_inv true p c s0 eq_refl Hown eq_refl Hc Hi Heq)
    as (HI & HM & HP).
  rewrite renderPass_S.
  destruct (snd (passEffects true p c s0)) as [a|] eqn:E; [|auto].
  destruct (ref a =? ref c)%nat; [auto|].
  destruct (HP a eq_refl) as [Ha Haeq].
  pose proof (passEffects_frame true p c s0) as Hf. cbn zeta in Hf.
  destruct Hf as (_ & P & _).
  apply renderPass_inv; try assumption.
  destruct HI as (_ & (_ & Hip & _) & _). rewrite P in Hip. exact Hip.
Qed.

Lemma run_inv (es : list Event) :
  forall s, Inv s -> Inv (run s es).
Proof.
  induction es as [|e es IH]; intros s Hinv; cbn; [assumption|].
  apply IH. apply step_inv. assumption.
Qed.

Lemma reachable_inv (w : Z) (l : list ReactNode) (o : Options) (es : list Event) :
  Inv (run (mount w l o) es).
Proof. apply run_inv. apply mount_inv. Qed.

(** ** Renders that settle *)

Lemma layoutDepsChanged_same (p : Props) (o : Options) :
  gap o = gap (options p) ->
  layoutDepsChanged p {| items := items p; options := o |} = false.
Proof.
  intros Hg. unfold layoutDepsChanged. cbn.
  rewrite Nat.eqb_refl, Hg, Z.eqb_refl. reflexivity.
Qed.

Lemma layoutDepsChanged_refl (p : Props) : layoutDepsChanged p p = false.
Proof.
  unfold layoutDepsChanged. rewrite Nat.eqb_refl, Z.eqb_refl. reflexivity.
Qed.

Lemma hoverDepsChanged_refl (p : Props) : hoverDepsChanged p p = false.
Proof.
  unfold hoverDepsChanged. rewrite eqb_reflx. reflexivity.
Qed.

Lemma passEffects_snd (first : bool) (p' : Props) (c' : JsArray ReactNode)
    (s : State) :
  snd (passEffects first p' c' s)
  = if first || layoutDepsChanged (props s) p'
    then snd (layoutEffect (commitRender p' c' s)) else None.
Proof.
  unfold passEffects. cbn [snd].
  destruct (first || layoutDepsChanged (props s) p'); reflexivity.
Qed.

Lemma passEffects_measured (first : bool) (p' : Props)
    (c' : JsArray ReactNode) (s : State) :
  measured (fst (passEffects first p' c' s))
  = if first || layoutDepsChanged (props s) p'
    then measured (fst (layoutEffect (commitRender p' c' s)))
    else measured s.
Proof.
  unfold passEffects. cbn [fst].
  set (lay := if first || layoutDepsChanged (props s) p'
              then layoutEffect (commitRender p' c' s)
              else (commitRender p' c' s, None)).
  assert (Hlay : measured (fst lay)
                 = if first || layoutDepsChanged (props s) p'
                   then measured (fst (layoutEffect (commitRender p' c' s)))
                   else measured s).
  { subst lay. destruct (first || layoutDepsChanged (props s) p'); reflexivity. }
  rewrite <- Hlay.
  set (s2 := if first || animDepsChanged (props s) (clonedItems s) p' c'
             then animationEffect (fst lay) else fst lay).
  assert (Hs2 : measured s2 = measured (fst lay)).
  { subst s2. destruct (first || animDepsChanged _ _ _ _); [|reflexivity].
    apply animationEffect_frame. }
  rewrite <- Hs2. clearbody s2.
  destruct first; [|destruct (hoverDepsChanged (props s) p')];
    cbn [measured setResizeListener]; try reflexivity.
  - apply hoverEffect_frame.
  - pose proof (hoverEffect_frame (hoverCleanup s2)) as F. cbn zeta in F.
    destruct F as (_ & _ & _ & _ & _ & _ & _ & _ & _ & _ & ->). reflexivity.
Qed.

(** With the dependencies of the measuring effect unchanged a render is
    the last one: the state is the one rendered, nothing is measured. *)
Lemma renderPass_settled (fuel : nat) (p' : Props) (c' : JsArray ReactNode)
    (s : State) :
  layoutDepsChanged (props s) p' = false ->
  renderPass (S fuel) false p' c' s = fst (passEffects false p' c' s)
  /\ clonedItems (renderPass (S fuel) false p' c' s) = c'
  /\ measured (renderPass (S fuel) false p' c' s) = measured s.
Proof.
  intros Hd. rewrite renderPass_S, passEffects_snd, Hd. cbn [orb].
  split; [reflexivity|]. split.
  - apply passEffects_frame.
  - rewrite passEffects_measured, Hd. reflexivity.
Qed.

Lemma layoutEffect_mounted (s : State) :
  mounted s = true ->
  layoutEffect s
  = let ws := childWidths s in
    let totalWidth := Measure.measureTotalWidth (gap (options (props s))) ws in
    if Measure.skipCloning totalWidth ws
    then (noteLayout ws false 0 (killAndClear s), Some (items (props s)))
    else (noteLayout ws true 1 (killAndClear s),
          Some {| ref := nextRef s;
                  elems := Measure.repeatItems
                             (Measure.cloneCount (containerWidth s) totalWidth)
                             (elems (items (props s))) |}).
Proof.
  intros Hm. unfold layoutEffect. rewrite Hm. reflexivity.
Qed.

Lemma measured_noteLayout (ws : list Z) (b : bool) (k : nat) (s : State) :
  measured (noteLayout ws b k (killAndClear s)) = measured s ++ [(ws, b)].
Proof.
  unfold noteLayout, killAndClear. destruct (tweenRef s); reflexivity.
Qed.

(** A render whose measuring effect runs: what is measured, and the state
    the renders end in. *)
Lemma renderPass_measures (fuel : nat) (p' : Props) (c' : JsArray ReactNode)
    (s : State) :
  mounted s = true ->
  layoutDepsChanged (props s) p' = true ->
  (ref c' < nextRef s)%nat ->
  (ref c' = ref (items p') -> c' = items p') ->
  let ws := map offsetWidthOf (elems c') in
  let tw := Measure.measureTotalWidth (gap (options p')) ws in
  let skip := Measure.skipCloning tw ws in
  elems (clonedItems (renderPass (S (S fuel)) false p' c' s))
  = (if skip then elems (items p')
     else Measure.repeatItems (Measure.cloneCount (containerWidth s) tw)
            (elems (items p')))
  /\ measured (renderPass (S (S fuel)) false p' c' s)
     = measured s ++ [(ws, negb skip)].
Proof.
  intros Hm Hd Hc Heq ws tw skip.
  pose proof (passEffects_frame false p' c' s) as Hf. cbn zeta in Hf.
  destruct Hf as (_ & P & C & _).
  assert (Hsettle : forall a,
             clonedItems (renderPass (S fuel) false p' a
                            (fst (passEffects false p' c' s))) = a
             /\ measured (renderPass (S fuel) false p' a
                            (fst (passEffects false p' c' s)))
                = measured (fst (passEffects false p' c' s))).
  { intros a. apply renderPass_settled. rewrite P. apply layoutDepsChanged_refl. }
  assert (Hmeas : measured (fst (passEffects false p' c' s))
                  = measured s ++ [(ws, negb skip)]).
  { rewrite passEffects_measured, Hd. cbn [orb].
    rewrite layoutEffect_mounted by exact Hm. cbv zeta.
    change (childWidths (commitRender p' c' s)) with ws.
    change (gap (options (props (commitRender p' c' s)))) with (gap (options p')).
    fold tw. fold skip.
    destruct skip; cbn [fst negb]; rewrite measured_noteLayout; reflexivity. }
  rewrite renderPass_S, passEffects_snd, Hd. cbn [orb].
  rewrite layoutEffect_mounted by exact Hm. cbv zeta.
  change (childWidths (commitRender p' c' s)) with ws.
  change (gap (options (props (commitRender p' c' s)))) with (gap (options p')).
  fold tw. fold skip.
  destruct skip; cbn [snd].
  - change (items (props (commitRender p' c' s))) with (items p').
    destruct (ref (items p') =? ref c')%nat eqn:E.
    + apply Nat.eqb_eq in E. rewrite C, Hmeas.
      rewrite (Heq (eq_sym E)). auto.
    + destruct (Hsettle (items p')) as [-> ->]. auto.
  - cbn [ref nextRef commitRender].
    destruct (nextRef s =? ref c')%nat eqn:E.
    + apply Nat.eqb_eq in E. lia.
    + match goal with
      | |- context [renderPass (S fuel) false p' ?a _] =>
          destruct (Hsettle a) as [-> ->]
      end.
      cbn [elems]. auto.
Qed.

Lemma update_measures (l : option (list ReactNode)) (o : Options) (s : State) :
  mounted s = true -> Inv s -> remeasures s (Update l o) = true ->
  let ws := childWidths s in
  let tw := Measure.measureTotalWidth (gap o) ws in
  let skip := Measure.skipCloning tw ws in
  elems (clonedItems (update l o s))
  = (if skip then nextItems l s
     else Measure.repeatItems (Measure.cloneCount (containerWidth s) tw)
            (nextItems l s))
  /\ measured (update l o s) = measured s ++ [(ws, negb skip)].
Proof.
  intros Hm (_ & (Hc & Hi & Heq) & _) Hre ws tw skip.
  unfold remeasures in Hre. rewrite Hm in Hre. cbn [andb] in Hre.
  unfold update. rewrite maxUpdateDepth_S.
  destruct l as [l'|].
  - apply (renderPass_measures 48
             {| items := {| ref := nextRef s; elems := l' |}; options := o |}
             (clonedItems s) (takeRef s)); cbn; try lia; try assumption.
    unfold layoutDepsChanged. cbn.
    destruct (Nat.eqb_spec (ref (items (props s))) (nextRef s)); [lia|].
    reflexivity.
  - apply (renderPass_measures 48
             {| items := items (props s); options := o |}
             (clonedItems s) s); cbn; try lia; try assumption.
    unfold layoutDepsChanged. cbn. cbn [orb] in Hre.
    rewrite Nat.eqb_refl. cbn [andb]. exact Hre.
Qed.

(** ** Resetting the rendered list *)

Lemma clearClonedItems_eq (s : State) :
  mounted s = true ->
  clearClonedItems s
  = commitRender (props s) {| ref := nextRef s; elems := [] |} (takeRef s).
Proof.
  intros Hm. unfold clearClonedItems. rewrite Hm, maxUpdateDepth_S.
  destruct (renderPass_settled 49 (props s)
              {| ref := nextRef s; elems := [] |} (takeRef s)) as [-> _].
  { apply layoutDepsChanged_refl. }
  unfold passEffects. cbn [fst props takeRef clonedItems].
  rewrite layoutDepsChanged_refl, hoverDepsChanged_refl. cbn [orb fst].
  destruct (animDepsChanged _ _ _ _); [|reflexivity].
  unfold animationEffect. cbn. rewrite Hm. reflexivity.
Qed.

Lemma sameButList_refl (s : State) : sameButList s s.
Proof. repeat split. Qed.

Lemma sameButList_trans (a b c : State) :
  sameButList a b -> sameButList b c -> sameButList a c.
Proof.
  unfold sameButList.
  intros (A1 & A2 & A3 & A4 & A5 & A6 & A7 & A8)
         (B1 & B2 & B3 & B4 & B5 & B6 & B7 & B8).
  repeat split; congruence.
Qed.

Lemma clearClonedItems_same (s : State) : sameButList s (clearClonedItems s).
Proof.
  destruct (mounted s) eqn:Hm.
  - rewrite clearClonedItems_eq by assumption. repeat split.
  - unfold clearClonedItems. rewrite Hm. apply sameButList_refl.
Qed.

Lemma clearClonedItems_elems (s : State) :
  mounted s = true -> elems (clonedItems (clearClonedItems s)) = [].
Proof.
  intros Hm. rewrite clearClonedItems_eq by assumption. reflexivity.
Qed.

Lemma fireTimers_same (l : list TimerAction) :
  forall s, sameButList s (fold_left fireTimer l s).
Proof.
  induction l as [|a l IH]; intros s; cbn [fold_left].
  - apply sameButList_refl.
  - eapply sameButList_trans; [|apply IH].
    destruct a; cbn; [apply sameButList_refl | apply clearClonedItems_same].
Qed.

Lemma handleResize_same (s : State) : sameButList s (handleResize s).
Proof.
  unfold handleResize. destruct listing; cbv zeta.
  - eapply sameButList_trans; [apply clearClonedItems_same|]. repeat split.
  - repeat split.
Qed.

(** Time passing moves the tweens on and may reset the rendered list;
    nothing else changes. *)
Lemma elapse_effect (ms : nat) (s : State) :
  tweens (elapse ms s) = map (Gsap.advance ms) (tweens s)
  /\ tweenRef (elapse ms s) = tweenRef s
  /\ hoverListeners (elapse ms s) = hoverListeners s
  /\ resizeListener (elapse ms s) = resizeListener s
  /\ mounted (elapse ms s) = mounted s
  /\ props (elapse ms s) = props s
  /\ containerWidth (elapse ms s) = containerWidth s
  /\ measured (elapse ms s) = measured s.
Proof.
  unfold elapse. cbv zeta.
  match goal with
  | |- context [fold_left fireTimer ?l ?s1] =>
      destruct (fireTimers_same l s1)
        as (-> & -> & -> & -> & -> & -> & -> & ->)
  end.
  repeat split.
Qed.

(** An event that does not make the measuring effect run measures nothing. *)
Lemma step_measures_nothing (s : State) (e : Event) :
  remeasures s e = false -> measured (step s e) = measured s.
Proof.
  intros Hre. destruct e as [l o|w|ms| | |]; cbn [step].
  - destruct (mounted s) eqn:Hm; [|reflexivity].
    cbn [remeasures] in Hre. rewrite Hm in Hre. cbn [andb] in Hre.
    destruct l as [l'|]; [discriminate|]. cbn [orb] in Hre.
    apply negb_false_iff, Z.eqb_eq in Hre.
    unfold update. rewrite maxUpdateDepth_S.
    apply renderPass_settled. apply layoutDepsChanged_same. congruence.
  - destruct (resizeListener s); [|reflexivity].
    apply (handleResize_same (setContainerWidth w s)).
  - apply elapse_effect.
  - destruct (hoverListeners s); [|reflexivity].
    unfold handleMouseEnter. destruct (tweenRef s); reflexivity.
  - destruct (hoverListeners s); [|reflexivity].
    unfold handleMouseLeave. destruct (tweenRef s); reflexivity.
  - destruct (mounted s); reflexivity.
Qed.

(** ** Step 1: cloning *)

Lemma positive_width_clones (g : Z) (ws : list Z) :
  0 < Measure.measureTotalWidth g ws ->
  Measure.skipCloning (Measure.measureTotalWidth g ws) ws = false.
Proof.
  intros Hpos. unfold Measure.skipCloning.
  destruct ws as [|w ws]; [rewrite measureTotalWidth_nil in Hpos; lia|].
  destruct (Z.leb_spec (Measure.measureTotalWidth g (w :: ws)) 0); [lia|].
  reflexivity.
Qed.

(** X15.  The update path reaches the clone count.  When the measuring
    effect runs on an update (a new [items] array or another [gap])
    while the wrapper shows one copy of [items], and the width it
    measures, [totalWidth] (the widths of the items plus [gap] after each
    but the last), is positive, the list committed is [cloneCount] copies
    of [items] one after the other, with
    [cloneCount = ceil(containerWidth / totalWidth) + 2]. *)
Theorem clones_committed (w0 : Z) (l0 : list ReactNode) (o0 : Options)
    (es : list Event) (l : option (list ReactNode)) (o : Options) :
  let s := run (mount w0 l0 o0) es in
  let its := nextItems l s in
  let totalWidth := Measure.measureTotalWidth (gap o) (map offsetWidthOf its) in
  let cloneCount :=
    Qceiling (inject_Z (containerWidth s) / inject_Z totalWidth)%Q + 2 in
  mounted s = true ->
  remeasures s (Update l o) = true ->
  elems (clonedItems s) = its ->
  0 < totalWidth ->
  elems (clonedItems (step s (Update l o)))
  = concat (repeat its (Z.to_nat cloneCount)).
Proof.
  intros s its totalWidth cloneCount Hm Hre Hshown Hpos.
  pose proof (reachable_inv w0 l0 o0 es) as Hinv. fold s in Hinv.
  cbn [step]. rewrite Hm.
  destruct (update_measures l o s Hm Hinv Hre) as [Hel _].
  cbv zeta in Hel. rewrite Hel. unfold childWidths. rewrite Hshown.
  fold its.
  rewrite (positive_width_clones (gap o) (map offsetWidthOf its) Hpos).
  reflexivity.
Qed.

(** C2, as amended.  For a list of items whose one copy measures
    [totalWidth > 0], a gap that is not negative and a container [w] wide,
    the strip of [cloneCount] copies measures [cloneCount] times
    [totalWidth] plus the gaps between consecutive copies, and this is at
    least [w + 2 * totalWidth]: the container width and two further
    copies.  It is at least [2 * w] when [w <= 2 * totalWidth]. *)
Theorem rendered_width_bound (its : list ReactNode) (g w : Z) :
  let totalWidth := Measure.measureTotalWidth g (map offsetWidthOf its) in
  let cloneCount := Measure.cloneCount w totalWidth in
  let rendered :=
    Measure.measureTotalWidth g
      (map offsetWidthOf (Measure.repeatItems cloneCount its)) in
  0 < totalWidth -> 0 <= g -> 0 <= w ->
  rendered = cloneCount * totalWidth + (cloneCount - 1) * g
  /\ w + 2 * totalWidth <= rendered
  /\ (w <= 2 * totalWidth -> 2 * w <= rendered).
Proof.
  intros totalWidth cloneCount rendered Hpos Hg Hw.
  assert (Hne : its <> []).
  { intros ->. unfold totalWidth in Hpos. cbn in Hpos. lia. }
  pose proof (cloneCount_ge_2 w totalWidth Hpos Hw) as H2.
  pose proof (cloneCount_covers w totalWidth Hpos) as [Hcov _].
  fold cloneCount in H2, Hcov.
  assert (Hr : rendered = cloneCount * totalWidth + (cloneCount - 1) * g).
  { unfold rendered, totalWidth. apply measure_copies; [assumption | lia]. }
  split; [exact Hr|]. rewrite Hr. split; [nia|]. intros Hsmall. nia.
Qed.

(** ** Step 2: the tween *)

Lemma durationOf_abs (d : Z) (sp : Q) :
  Animate.durationOf d sp = (inject_Z (Z.abs d) / sp)%Q.
Proof. reflexivity. Qed.

Lemma animationEffect_creates (s : State) :
  mounted s = true -> elems (clonedItems s) <> [] ->
  exists ts,
    length ts = length (tweens s) /\
    tweens (animationEffect s)
    = ts ++ [Gsap.fresh
               (Animate.tweenVars listing (direction (options (props s)))
                  (scrollWidthOf (elems (clonedItems s)) (gap (options (props s))))
                  (containerWidth s) (speed (options (props s))))]
    /\ tweenRef (animationEffect s) = Some (length ts).
Proof.
  intros Hm Hne. unfold animationEffect. rewrite Hm. cbn [negb].
  destruct (elems (clonedItems s)) as [|a rest] eqn:E; [congruence|].
  cbn [length Nat.eqb]. cbv zeta.
  destruct listing.
  - exists (tweens (killAndClear s)).
    split; [apply length_killAndClear|]. split; reflexivity.
  - exists (tweens (killOnly s)).
    split; [apply length_killOnly|]. split; reflexivity.
Qed.

(** C3, as amended.  The tween the animation effect creates over a
    non-empty rendered list, for a wrapper [scrollWidth] wide and a
    positive [speed], lasts [scrollWidth / speed] in the listing that
    moves by the full scroll width, and [|scrollWidth - containerWidth| /
    speed] in the listing that moves by the scroll width less the
    container width; in both the direction plays no part. *)
Theorem duration_by_listing (s : State) :
  let scrollWidth :=
    scrollWidthOf (elems (clonedItems s)) (gap (options (props s))) in
  let sp := speed (options (props s)) in
  mounted s = true -> elems (clonedItems s) <> [] ->
  0 <= scrollWidth -> (0 < sp)%Q ->
  exists i t,
    tweenRef (animationEffect s) = Some i
    /\ nth_error (tweens (animationEffect s)) i = Some t
    /\ killed t = false
    /\ duration (vars t)
       = match listing with
         | FullScroll => (inject_Z scrollWidth / sp)%Q
         | ScrollMinusContainer =>
             (inject_Z (Z.abs (scrollWidth - containerWidth s)) / sp)%Q
         end.
Proof.
  intros scrollWidth sp Hm Hne Hsw Hsp.
  destruct (animationEffect_creates s Hm Hne) as (ts & _ & Hts & Hr).
  exists (length ts). eexists. rewrite Hts, Hr.
  rewrite nth_error_app2, Nat.sub_diag by lia.
  split; [reflexivity|]. split; [reflexivity|]. split; [reflexivity|].
  cbn [vars Gsap.fresh duration Animate.tweenVars].
  fold scrollWidth. fold sp. rewrite durationOf_abs.
  destruct listing, (direction (options (props s)));
    cbn [Animate.distance]; f_equal; f_equal; lia.
Qed.

(** C5.  For a given listing, scroll width, container width and speed,
    the tween variables for direction right have the target translation
    of direction left with the sign reversed, the same absolute distance
    and the same duration. *)
Theorem direction_reverses (l : Listing) (totalWidth containerWidth : Z)
    (sp : Q) :
  let toLeft := Animate.tweenVars l DirLeft totalWidth containerWidth sp in
  let toRight := Animate.tweenVars l DirRight totalWidth containerWidth sp in
  x toRight = - x toLeft
  /\ Z.abs (x toRight) = Z.abs (x toLeft)
  /\ duration toRight = duration toLeft.
Proof.
  cbn [x duration Animate.tweenVars]. rewrite !durationOf_abs.
  destruct l; cbn [Animate.distance];
    (split; [lia|]; split; [lia|]; f_equal; f_equal; lia).
Qed.

(** ** One tween at a time *)

Lemma last_only_active (ts : list Tween) :
  (forall i t, nth_error ts i = Some t -> killed t = false ->
     S i = length ts) ->
  (length (filter isActive ts) <= 1)%nat.
Proof.
  induction ts as [|a rest IH]; intros Hlast; cbn [filter length]; [lia|].
  assert (Hrest : (length (filter isActive rest) <= 1)%nat).
  { apply IH. intros i t Hn Hk.
    pose proof (Hlast (S i) t Hn Hk) as H. cbn [length] in H. lia. }
  unfold isActive at 1. destruct (killed a) eqn:Hk; cbn [negb length]; [exact Hrest|].
  pose proof (Hlast 0%nat a eq_refl Hk) as H. cbn [length] in H.
  destruct rest; [cbn; lia | cbn [length] in H; lia].
Qed.

(** C6.  In every state the component reaches, at most one tween is
    active; and an event that starts a tween leaves every tween that
    existed before it killed. *)
Theorem single_active_tween (w : Z) (l : list ReactNode) (o : Options)
    (es : list Event) :
  let s := run (mount w l o) es in
  (length (activeTweens s) <= 1)%nat
  /\ forall e i t,
       (length (tweens s) < length (tweens (step s e)))%nat ->
       (i < length (tweens s))%nat ->
       nth_error (tweens (step s e)) i = Some t ->
       killed t = true.
Proof.
  intros s. pose proof (reachable_inv w l o es) as Hinv. fold s in Hinv.
  split.
  - destruct Hinv as ((Hown & _) & _).
    apply last_only_active. intros i t Hn Hk. apply (Hown i t Hn Hk).
  - intros e i t Hgrow Hi Hn.
    destruct (step_inv s e Hinv) as ((Hown & _) & _).
    destruct (killed t) eqn:Hk; [reflexivity|].
    destruct (Hown i t Hn Hk) as [_ Hlast]. lia.
Qed.

(** ** The first render *)

Lemma mount_unfold (w : Z) (l : list ReactNode) (o : Options) :
  let p := {| items := {| ref := 1; elems := l |}; options := o |} in
  let c := {| ref := 0%nat; elems := @nil ReactNode |} in
  let s0 := mkState true p c None [] false false [] w 2 [] [] in
  snd (passEffects true p c s0) = Some (items p)
  /\ measured (fst (passEffects true p c s0)) = [([], false)]
  /\ mount w l o
     = fst (passEffects false p (items p) (fst (passEffects true p c s0))).
Proof.
  intros p c s0.
  assert (Hlay : layoutEffect (commitRender p c s0)
                 = (noteLayout [] false 0 (killAndClear (commitRender p c s0)),
                    Some (items p))).
  { rewrite layoutEffect_mounted by reflexivity. reflexivity. }
  assert (Hsnd : snd (passEffects true p c s0) = Some (items p)).
  { rewrite passEffects_snd. cbn [orb]. rewrite Hlay. reflexivity. }
  split; [exact Hsnd|]. split.
  - rewrite passEffects_measured. cbn [orb]. rewrite Hlay. reflexivity.
  - unfold mount. rewrite maxUpdateDepth_S. cbv zeta. fold p. fold c. fold s0.
    rewrite renderPass_S, Hsnd. cbn [ref items p c Nat.eqb].
    apply renderPass_settled.
    pose proof (passEffects_frame true p c s0) as Hf. cbn zeta in Hf.
    destruct Hf as (_ & -> & _). apply layoutDepsChanged_refl.
Qed.

Lemma mount_facts (w : Z) (l : list ReactNode) (o : Options) :
  measured (mount w l o) = [([], false)]
  /\ commits (mount w l o) = [[]; l]
  /\ elems (clonedItems (mount w l o)) = l.
Proof.
  destruct (mount_unfold w l o) as (Hsnd & Hmeas & ->).
  set (p := {| items := {| ref := 1; elems := l |}; options := o |}) in *.
  set (c := {| ref := 0%nat; elems := @nil ReactNode |}) in *.
  set (s0 := mkState true p c None [] false false [] w 2 [] []) in *.
  pose proof (passEffects_frame true p c s0) as Hf. cbn zeta in Hf.
  destruct Hf as (_ & P1 & _ & _ & _ & K1).
  pose proof (passEffects_frame false p (items p) (fst (passEffects true p c s0)))
    as Hf. cbn zeta in Hf.
  destruct Hf as (_ & _ & C2 & _ & _ & K2).
  split; [|split].
  - rewrite passEffects_measured, P1, layoutDepsChanged_refl. exact Hmeas.
  - rewrite K2, K1. reflexivity.
  - rewrite C2. reflexivity.
Qed.

(** C10.  On mount the measuring effect runs once, over a wrapper without
    children: the clone count is not reached, and the list committed
    after the empty first render is [items], not repeated, whatever
    [items] is.  The effect does not run again on an event other than an
    update with a new [items] array or another [gap]. *)
Theorem first_commit_is_items (w : Z) (l : list ReactNode) (o : Options) :
  let s := mount w l o in
  measured s = [([], false)]
  /\ commits s = [[]; l]
  /\ elems (clonedItems s) = l
  /\ forall (s' : State) (e : Event),
       remeasures s' e = false -> measured (step s' e) = measured s'.
Proof.
  intros s. subst s.
  destruct (mount_facts w l o) as (Hme & Hco & Hel).
  split; [exact Hme|]. split; [exact Hco|]. split; [exact Hel|].
  apply step_measures_nothing.
Qed.

(** ** Skipping the cloning *)

Lemma cloneRuns_skip (s s' : State) (ws : list Z) :
  measured s' = measured s ++ [(ws, false)] -> cloneRuns s' = cloneRuns s.
Proof.
  intros H. unfold cloneRuns. rewrite H, filter_app, length_app. cbn. lia.
Qed.

Lemma layoutEffect_no_tween (s : State) :
  tweens s = [] -> tweenRef s = None ->
  tweens (fst (layoutEffect s)) = [] /\ tweenRef (fst (layoutEffect s)) = None.
Proof.
  intros Ht Hr. unfold layoutEffect, killAndClear. rewrite Hr.
  destruct (negb (mounted s)); [auto|]. cbv zeta.
  destruct (Measure.skipCloning _ _); cbn; auto.
Qed.

Lemma animationEffect_empty (s : State) :
  elems (clonedItems s) = [] -> animationEffect s = s.
Proof.
  intros He. unfold animationEffect. rewrite He.
  destruct (negb (mounted s)); reflexivity.
Qed.

Lemma passEffects_no_tween (first : bool) (p' : Props)
    (c' : JsArray ReactNode) (s : State) :
  elems c' = [] -> tweens s = [] -> tweenRef s = None ->
  tweens (fst (passEffects first p' c' s)) = []
  /\ tweenRef (fst (passEffects first p' c' s)) = None.
Proof.
  intros He Ht Hr. unfold passEffects. cbn [fst].
  set (s0 := commitRender p' c' s).
  set (lay := if first || layoutDepsChanged (props s) p'
              then layoutEffect s0 else (s0, None)).
  assert (Hlay : (tweens (fst lay) = [] /\ tweenRef (fst lay) = None)
                 /\ clonedItems (fst lay) = c').
  { subst lay. destruct (first || layoutDepsChanged (props s) p').
    - split; [apply layoutEffect_no_tween; assumption|].
      apply (layoutEffect_frame s0).
    - auto. }
  destruct Hlay as [Hlay Hc].
  set (s2 := if first || animDepsChanged (props s) (clonedItems s) p' c'
             then animationEffect (fst lay) else fst lay).
  assert (Hs2 : tweens s2 = [] /\ tweenRef s2 = None).
  { subst s2. destruct (first || animDepsChanged _ _ _ _); [|exact Hlay].
    rewrite animationEffect_empty by congruence. exact Hlay. }
  clearbody s2. destruct Hs2 as [T R].
  destruct first; [|destruct (hoverDepsChanged (props s) p')];
    cbn [tweens tweenRef setResizeListener]; auto.
  - pose proof (hoverEffect_frame s2) as F. cbn zeta in F.
    destruct F as (_ & _ & _ & -> & -> & _). auto.
  - pose proof (hoverEffect_frame (hoverCleanup s2)) as F. cbn zeta in F.
    destruct F as (_ & _ & _ & -> & -> & _). auto.
Qed.

(** C4, as amended.  When the measuring effect finds a width that is not
    positive or no child at all, nothing is cloned and the list committed
    is [items] as given.  For [items = []] at mount, the list committed
    is empty, nothing is cloned and no tween is created. *)
Theorem skipped_cloning (w0 : Z) (l0 : list ReactNode) (o0 : Options)
    (es : list Event) (l : option (list ReactNode)) (o : Options) :
  let s := run (mount w0 l0 o0) es in
  let ws := childWidths s in
  let totalWidth := Measure.measureTotalWidth (gap o) ws in
  (mounted s = true ->
   remeasures s (Update l o) = true ->
   totalWidth <= 0 \/ ws = [] ->
   elems (clonedItems (step s (Update l o))) = nextItems l s
   /\ cloneRuns (step s (Update l o)) = cloneRuns s)
  /\ (let m := mount w0 [] o0 in
      elems (clonedItems m) = [] /\ commits m = [[]; []]
      /\ cloneRuns m = 0%nat /\ tweens m = []).
Proof.
  intros s ws totalWidth. split.
  - intros Hm Hre Hskip.
    pose proof (reachable_inv w0 l0 o0 es) as Hinv. fold s in Hinv.
    cbn [step]. rewrite Hm.
    destruct (update_measures l o s Hm Hinv Hre) as [Hel Hme].
    cbv zeta in Hel, Hme. fold ws in Hel, Hme. fold totalWidth in Hel, Hme.
    assert (Hs : Measure.skipCloning totalWidth ws = true).
    { unfold Measure.skipCloning. destruct Hskip as [Hle | ->].
      - destruct (Z.leb_spec totalWidth 0); [reflexivity | lia].
      - apply orb_true_r. }
    rewrite Hs in Hel, Hme. split; [exact Hel|].
    eapply cloneRuns_skip. exact Hme.
  - cbv zeta.
    destruct (mount_facts w0 [] o0) as (Hme & Hco & Hel).
    split; [exact Hel|]. split; [exact Hco|]. split.
    + unfold cloneRuns. rewrite Hme. reflexivity.
    + destruct (mount_unfold w0 [] o0) as (_ & _ & ->).
      apply passEffects_no_tween; [reflexivity | |];
        apply passEffects_no_tween; reflexivity.
Qed.

(** ** Hover *)

Lemma advance_stopped (ms : nat) (t : Tween) :
  Gsap.running t = false -> Gsap.advance ms t = t.
Proof. intros H. unfold Gsap.advance. rewrite H. reflexivity. Qed.

Lemma advance_running (ms : nat) (t : Tween) :
  Gsap.running t = true ->
  playhead (Gsap.advance ms t) = (playhead t + ms)%nat
  /\ vars (Gsap.advance ms t) = vars t.
Proof. intros H. unfold Gsap.advance. rewrite H. split; reflexivity. Qed.

(** A tween that is not running stays as it is while time passes. *)
Lemma stopped_stays (dts : list nat) :
  forall (s : State) (i : nat) (t : Tween),
    nth_error (tweens s) i = Some t -> Gsap.running t = false ->
    nth_error (tweens (run s (map Elapse dts))) i = Some t
    /\ tweenRef (run s (map Elapse dts)) = tweenRef s
    /\ hoverListeners (run s (map Elapse dts)) = hoverListeners s.
Proof.
  induction dts as [|ms dts IH]; intros s i t Hn Hstop; cbn [map run fold_left].
  - auto.
  - fold (run (step s (Elapse ms)) (map Elapse dts)).
    pose proof (elapse_effect ms s) as (Ht & Hr & Hh & _).
    cbn [step].
    destruct (IH (elapse ms s) i t) as (H1 & H2 & H3).
    + rewrite Ht, nth_error_map, Hn. cbn. rewrite advance_stopped; auto.
    + assumption.
    + rewrite H1, H2, H3, Hr, Hh. auto.
Qed.

(** C8.  The hover listeners are attached exactly while the component is
    mounted with [pauseOnHover] set.  With them attached, pointer-enter
    pauses the tween in [tweenRef] where it is: as long as only time
    passes its playhead and its offset stay what they were; pointer-leave
    sets it running again from that playhead, and time then moves it on
    from there. *)
Theorem hover_pauses_in_place (w : Z) (l : list ReactNode) (o : Options)
    (es : list Event) :
  let s := run (mount w l o) es in
  hoverListeners s = mounted s && pauseOnHover (options (props s))
  /\ forall i,
       hoverListeners s = true -> tweenRef s = Some i ->
       exists t,
         nth_error (tweens s) i = Some t /\ killed t = false
         /\ forall dts,
              let frozen := run (step s MouseEnter) (map Elapse dts) in
              let resumed := step frozen MouseLeave in
              (exists tf,
                  nth_error (tweens frozen) i = Some tf
                  /\ paused tf = true
                  /\ playhead tf = playhead t
                  /\ Gsap.offset tf = Gsap.offset t)
              /\ (exists tr,
                     nth_error (tweens resumed) i = Some tr
                     /\ Gsap.running tr = true
                     /\ playhead tr = playhead t
                     /\ Gsap.offset tr = Gsap.offset t)
              /\ forall ms,
                   exists tm,
                     nth_error (tweens (step resumed (Elapse ms))) i = Some tm
                     /\ playhead tm = (playhead t + ms)%nat
                     /\ vars tm = vars t.
Proof.
  intros s. pose proof (reachable_inv w l o es) as Hinv. fold s in Hinv.
  destruct Hinv as ((_ & Href) & _ & (Hhover & _)).
  split; [exact Hhover|].
  intros i Hh Hr. destruct (Href i Hr) as (t & Hn & Hk).
  exists t. split; [exact Hn|]. split; [exact Hk|].
  intros dts frozen resumed.
  assert (Henter : nth_error (tweens (step s MouseEnter)) i = Some (Gsap.pause t)
                   /\ tweenRef (step s MouseEnter) = Some i
                   /\ hoverListeners (step s MouseEnter) = true).
  { cbn [step]. rewrite Hh. unfold handleMouseEnter. rewrite Hr.
    cbn [tweens tweenRef hoverListeners setTweens].
    split; [apply nth_error_onTween_same; exact Hn | auto]. }
  destruct Henter as (He1 & He2 & He3).
  assert (Hstop : Gsap.running (Gsap.pause t) = false).
  { unfold Gsap.running. cbn. apply andb_false_r. }
  destruct (stopped_stays dts (step s MouseEnter) i (Gsap.pause t) He1 Hstop)
    as (Hf1 & Hf2 & Hf3).
  fold frozen in Hf1, Hf2, Hf3. rewrite He2 in Hf2. rewrite He3 in Hf3.
  assert (Hleave : nth_error (tweens resumed) i
                   = Some (Gsap.resume (Gsap.pause t))).
  { unfold resumed. cbn [step]. rewrite Hf3. unfold handleMouseLeave.
    rewrite Hf2. cbn [tweens setTweens].
    apply nth_error_onTween_same. exact Hf1. }
  assert (Hrun : Gsap.running (Gsap.resume (Gsap.pause t)) = true).
  { unfold Gsap.running. cbn. rewrite Hk. reflexivity. }
  split; [|split].
  - exists (Gsap.pause t). repeat split. exact Hf1.
  - exists (Gsap.resume (Gsap.pause t)). repeat split; assumption.
  - intros ms. exists (Gsap.advance ms (Gsap.resume (Gsap.pause t))).
    split.
    + cbn [step]. pose proof (elapse_effect ms resumed) as (-> & _).
      rewrite nth_error_map, Hleave. reflexivity.
    + apply (advance_running ms _ Hrun).
Qed.

(** ** Resize *)

(** Resizes and the passing of time never bring the measuring effect to
    run again. *)
Lemma resize_measures_nothing (es : list Event) :
  forall s,
    Forall (fun e => match e with Resize _ | Elapse _ => True | _ => False end) es ->
    measured (run s es) = measured s.
Proof.
  induction es as [|e es IH]; intros s Hall; cbn [run fold_left]; [reflexivity|].
  inversion Hall as [|e' es' He Hes]; subst.
  fold (run (step s e) es). rewrite IH by assumption.
  apply step_measures_nothing. destruct e; try contradiction; reflexivity.
Qed.

(** ** Unmount *)

(** Unmounting touches no tween. *)
Lemma unmount_keeps_tweens (s : State) :
  tweens (step s Unmount) = tweens s
  /\ tweenRef (step s Unmount) = tweenRef s.
Proof.
  cbn [step]. destruct (mounted s); split; reflexivity.
Qed.

(** ** Further properties of the measuring and cloning code *)

Lemma measure_app (g : Z) (a b : list Z) :
  a <> [] -> b <> [] ->
  Measure.measureTotalWidth g (a ++ b)
  = Measure.measureTotalWidth g a + g + Measure.measureTotalWidth g b.
Proof.
  intros Ha Hb. rewrite !measureTotalWidth_closed, sumWidths_app, length_app.
  assert (0 < length a)%nat by (destruct a; [congruence | cbn; lia]).
  assert (0 < length b)%nat by (destruct b; [congruence | cbn; lia]).
  rewrite !Z.max_r by lia. rewrite Nat2Z.inj_add. ring.
Qed.

(** X1.  The measuring loop adds [gap] after every child but the last:
    for a wrapper with children it returns the sum of their widths plus
    [gap] times their number less one, for a wrapper without children 0,
    and two runs of children side by side measure their two widths and
    one more gap. *)
Theorem measuring_loop_total (g : Z) (ws ws' : list Z) :
  Measure.measureTotalWidth g [] = 0
  /\ (ws <> [] ->
      Measure.measureTotalWidth g ws
      = Measure.sumWidths ws + g * (Z.of_nat (length ws) - 1))
  /\ (ws <> [] -> ws' <> [] ->
      Measure.measureTotalWidth g (ws ++ ws')
      = Measure.measureTotalWidth g ws + g + Measure.measureTotalWidth g ws').
Proof.
  split; [reflexivity|]. split.
  - intros Hne. rewrite measureTotalWidth_closed.
    assert (0 < length ws)%nat by (destruct ws; [congruence | cbn; lia]).
    rewrite Z.max_r by lia. reflexivity.
  - apply measure_app.
Qed.

(** X2.  For a positive measured width the clone count is the least
    number of copies that covers the container, plus two.  A strip that
    already fills a container of positive width gives three copies, a
    container of width 0 gives two, and a container width that is not
    negative never gives fewer than two. *)
Theorem clone_count_bounds (w tw : Z) :
  0 < tw ->
  (Measure.cloneCount w tw - 3) * tw < w <= (Measure.cloneCount w tw - 2) * tw
  /\ (0 < w <= tw -> Measure.cloneCount w tw = 3)
  /\ (w = 0 -> Measure.cloneCount w tw = 2)
  /\ (0 <= w -> 2 <= Measure.cloneCount w tw).
Proof.
  intros Htw. destruct (cloneCount_covers w tw Htw) as [Hup Hlow].
  split; [split; assumption|]. split; [|split]; intros Hw; nia.
Qed.

Lemma nth_error_copies {A : Type} (l : list A) (n : nat) :
  l <> [] ->
  forall i, (i < n * length l)%nat ->
    nth_error (concat (repeat l n)) i = nth_error l (i mod length l).
Proof.
  intros Hne.
  assert (Hlen : (0 < length l)%nat) by (destruct l; [congruence | cbn; lia]).
  induction n as [|n IH]; intros i Hi; [lia|].
  cbn [repeat concat].
  destruct (Nat.lt_ge_cases i (length l)) as [Hlt|Hge].
  - rewrite nth_error_app1 by assumption.
    rewrite Nat.mod_small by assumption. reflexivity.
  - rewrite nth_error_app2 by assumption.
    rewrite IH by (cbn in Hi; lia).
    f_equal.
    replace i with (i - length l + 1 * length l)%nat at 2 by lia.
    rewrite Nat.Div0.mod_add. reflexivity.
Qed.

(** X3.  The repeated list has [count] times as many elements as [items],
    and its element at index [i] is the element of [items] at index
    [i mod items.length]: the copies follow one another unchanged. *)
Theorem repeated_items_periodic {A : Type} (count : Z) (l : list A) :
  length (Measure.repeatItems count l) = (Z.to_nat count * length l)%nat
  /\ (l <> [] ->
      forall i, (i < Z.to_nat count * length l)%nat ->
        nth_error (Measure.repeatItems count l) i
        = nth_error l (i mod length l)).
Proof.
  unfold Measure.repeatItems. split; [apply length_copies|].
  intros Hne i Hi. apply nth_error_copies; assumption.
Qed.

(** X13.  The sign of the target translation.  In the first listing left
    is never positive and right never negative.  In the second listing a
    wrapper narrower than the container turns the signs over: left moves
    to the right and right to the left; and a wrapper exactly as wide as
    the container gives, at a positive speed, a tween of distance 0 and
    duration 0. *)
Theorem translation_sign (dir : Direction) (totalWidth containerWidth : Z)
    (sp : Q) :
  (0 <= totalWidth ->
   x (Animate.tweenVars FullScroll DirLeft totalWidth containerWidth sp) <= 0
   /\ 0 <= x (Animate.tweenVars FullScroll DirRight totalWidth containerWidth sp))
  /\ (totalWidth < containerWidth ->
      0 < x (Animate.tweenVars ScrollMinusContainer DirLeft
               totalWidth containerWidth sp)
      /\ x (Animate.tweenVars ScrollMinusContainer DirRight
              totalWidth containerWidth sp) < 0)
  /\ (totalWidth = containerWidth -> (0 < sp)%Q ->
      x (Animate.tweenVars ScrollMinusContainer dir
           totalWidth containerWidth sp) = 0
      /\ (duration (Animate.tweenVars ScrollMinusContainer dir
                      totalWidth containerWidth sp) == 0)%Q).
Proof.
  cbn [x duration Animate.tweenVars Animate.distance].
  split; [intros; lia|]. split; [intros; lia|].
  intros -> _. rewrite durationOf_abs.
  destruct dir; cbn [Animate.distance];
    (split; [lia|]);
    [replace (Z.abs (- (containerWidth - containerWidth))) with 0 by lia
    |replace (Z.abs (containerWidth - containerWidth)) with 0 by lia];
    unfold Qdiv; apply Qmult_0_l.
Qed.

(** ** Further properties of the renders *)

Lemma renderPass_commits (fuel : nat) (first : bool) (p' : Props)
    (c' : JsArray ReactNode) (s : State) :
  commits (renderPass (S (S fuel)) first p' c' s) = commits s ++ [elems c']
  \/ exists a,
       commits (renderPass (S (S fuel)) first p' c' s)
       = commits s ++ [elems c'; a].
Proof.
  pose proof (passEffects_frame first p' c' s) as Hf. cbn zeta in Hf.
  destruct Hf as (_ & P & _ & _ & _ & K).
  rewrite renderPass_S.
  destruct (snd (passEffects first p' c' s)) as [a|]; [|left; exact K].
  destruct (ref a =? ref c')%nat; [left; exact K|].
  right. exists (elems a).
  destruct (renderPass_settled fuel p' a (fst (passEffects first p' c' s)))
    as [-> _].
  { rewrite P. apply layoutDepsChanged_refl. }
  pose proof (passEffects_frame false p' a (fst (passEffects first p' c' s)))
    as Hf. cbn zeta in Hf.
  destruct Hf as (_ & _ & _ & _ & _ & ->). rewrite K, <- app_assoc. reflexivity.
Qed.

(** X12.  An update never takes more than two renders: the one with the
    new props, showing the list of the state as it was, and at most one
    more after the measuring effect updated the state.  The limit of
    nested updates is never reached. *)
Theorem update_renders_at_most_twice (s : State)
    (l : option (list ReactNode)) (o : Options) :
  mounted s = true ->
  commits (step s (Update l o)) = commits s ++ [elems (clonedItems s)]
  \/ exists a,
       commits (step s (Update l o)) = commits s ++ [elems (clonedItems s); a].
Proof.
  intros Hm. cbn [step]. rewrite Hm. unfold update. rewrite maxUpdateDepth_S.
  destruct l as [l'|].
  - apply (renderPass_commits 48 false _ (clonedItems s) (takeRef s)).
  - apply (renderPass_commits 48 false _ (clonedItems s) s).
Qed.

Lemma direction_eqb_refl (d : Direction) : direction_eqb d d = true.
Proof. destruct d; reflexivity. Qed.

(** A render whose measuring effect does not run. *)
Lemma passEffects_unmeasured (p' : Props) (c' : JsArray ReactNode) (s : State) :
  layoutDepsChanged (props s) p' = false ->
  fst (passEffects false p' c' s)
  = let s2 := if animDepsChanged (props s) (clonedItems s) p' c'
              then animationEffect (commitRender p' c' s)
              else commitRender p' c' s in
    if hoverDepsChanged (props s) p' then hoverEffect (hoverCleanup s2) else s2.
Proof.
  intros Hd. unfold passEffects. rewrite Hd. reflexivity.
Qed.

Lemma update_same_gap (o : Options) (s : State) :
  gap o = gap (options (props s)) ->
  update None o s
  = fst (passEffects false {| items := items (props s); options := o |}
           (clonedItems s) s).
Proof.
  intros Hg. unfold update. rewrite maxUpdateDepth_S.
  apply renderPass_settled. apply layoutDepsChanged_same. exact Hg.
Qed.

(** X8.  A render with the props of the render before it runs no effect:
    the tweens, the rendered list, the listeners, the timers and what
    was measured stay as they are; the list is committed once more. *)
Theorem rerender_same_props (s : State) :
  mounted s = true ->
  let s' := step s (Update None (options (props s))) in
  tweens s' = tweens s /\ tweenRef s' = tweenRef s
  /\ clonedItems s' = clonedItems s
  /\ hoverListeners s' = hoverListeners s
  /\ resizeListener s' = resizeListener s
  /\ timers s' = timers s
  /\ measured s' = measured s
  /\ commits s' = commits s ++ [elems (clonedItems s)].
Proof.
  intros Hm s'. subst s'. cbn [step]. rewrite Hm.
  rewrite update_same_gap by reflexivity.
  rewrite passEffects_unmeasured by (apply layoutDepsChanged_same; reflexivity).
  unfold animDepsChanged, hoverDepsChanged. cbn [options items].
  rewrite Nat.eqb_refl, Qeq_bool_refl, direction_eqb_refl, eqb_reflx.
  cbn. repeat split.
Qed.

(** The tweens after an update that brings another speed or direction
    and leaves [items] and [gap] alone. *)
Lemma restart_tweens (w : Z) (l : list ReactNode) (o0 : Options)
    (es : list Event) (o : Options) :
  let s := run (mount w l o0) es in
  let s' := step s (Update None o) in
  mounted s = true ->
  elems (clonedItems s) <> [] ->
  gap o = gap (options (props s)) ->
  Qeq_bool (speed (options (props s))) (speed o) = false
  \/ direction_eqb (direction (options (props s))) (direction o) = false ->
  exists ts,
    length ts = length (tweens s)
    /\ allKilled ts
    /\ tweens s'
       = ts ++ [Gsap.fresh
                  (Animate.tweenVars listing (direction o)
                     (scrollWidthOf (elems (clonedItems s)) (gap o))
                     (containerWidth s) (speed o))]
    /\ tweenRef s' = Some (length ts)
    /\ clonedItems s' = clonedItems s
    /\ measured s' = measured s
    /\ hoverListeners s' = pauseOnHover o.
Proof.
  intros s s' Hm Hne Hg Hdep.
  pose proof (reachable_inv w l o0 es) as Hinv. fold s in Hinv.
  pose proof (step_inv s (Update None o) Hinv) as Hinv'. fold s' in Hinv'.
  assert (Hs' : s' = hoverOrSame o s).
  { unfold s', hoverOrSame. cbn [step]. rewrite Hm.
    rewrite update_same_gap by exact Hg.
    rewrite passEffects_unmeasured by (apply layoutDepsChanged_same; exact Hg).
    unfold animDepsChanged. cbn [options items].
    rewrite Nat.eqb_refl. cbn [andb].
    destruct Hdep as [-> | ->]; [|rewrite andb_false_r]; reflexivity. }
  set (s0 := commitRender {| items := items (props s); options := o |}
               (clonedItems s) s) in *.
  destruct (animationEffect_creates s0 Hm Hne) as (ts & Hlen & Hts & Hr).
  assert (Htw : tweens s' = tweens (animationEffect s0)
                /\ tweenRef s' = tweenRef (animationEffect s0)
                /\ clonedItems s' = clonedItems s
                /\ measured s' = measured s).
  { rewrite Hs'. unfold hoverOrSame. fold s0.
    pose proof (animationEffect_frame s0) as F. cbn zeta in F.
    destruct F as (_ & _ & Fc & _ & _ & _ & _ & _ & _ & Fm).
    destruct (hoverDepsChanged (props s) _).
    - pose proof (hoverEffect_frame (hoverCleanup (animationEffect s0))) as G.
      cbn zeta in G.
      destruct G as (_ & _ & -> & -> & -> & _ & _ & _ & _ & _ & ->).
      cbn [tweens tweenRef clonedItems measured hoverCleanup setHover].
      rewrite Fc, Fm. auto.
    - rewrite Fc, Fm. auto. }
  destruct Htw as (Ht & Htr & Hc & Hme).
  exists ts. split; [exact Hlen|]. split.
  - intros i t Hn. destruct (killed t) eqn:Hk; [reflexivity|].
    destruct Hinv' as ((Hown & _) & _).
    assert (Hn' : nth_error (tweens s') i = Some t).
    { rewrite Ht, Hts. rewrite nth_error_app1; [exact Hn|].
      apply nth_error_Some. congruence. }
    destruct (Hown i t Hn' Hk) as [_ Hlast].
    rewrite Ht, Hts, length_app in Hlast. cbn in Hlast.
    assert (i < length ts)%nat by (apply nth_error_Some; congruence). lia.
  - split; [rewrite Ht; exact Hts|]. split; [rewrite Htr; exact Hr|].
    split; [exact Hc|]. split; [exact Hme|].
    destruct Hinv' as (_ & _ & (Hh & _)).
    assert (Hm' : mounted s' = true /\ props s' = {| items := items (props s); options := o |}).
    { unfold s'. cbn [step]. rewrite Hm. rewrite update_same_gap by exact Hg.
      pose proof (passEffects_frame false
                    {| items := items (props s); options := o |}
                    (clonedItems s) s) as F. cbn zeta in F.
      destruct F as (-> & -> & _). auto. }
    destruct Hm' as [Hm' Hp']. rewrite Hh, Hm', Hp'. reflexivity.
Qed.

(** X9.  An update that brings another speed or direction, with [items]
    and [gap] as before, restarts the animation over a rendered list
    that is not empty: the tweens there were are all killed and one new
    tween is created from the new speed and direction, running, with its
    playhead at the origin.  The rendered list is not touched and
    nothing is measured. *)
Theorem speed_change_restarts (w : Z) (l : list ReactNode) (o0 : Options)
    (es : list Event) (o : Options) :
  let s := run (mount w l o0) es in
  let s' := step s (Update None o) in
  mounted s = true ->
  elems (clonedItems s) <> [] ->
  gap o = gap (options (props s)) ->
  Qeq_bool (speed (options (props s))) (speed o) = false
  \/ direction_eqb (direction (options (props s))) (direction o) = false ->
  length (tweens s') = S (length (tweens s))
  /\ tweenRef s' = Some (length (tweens s))
  /\ (exists t,
        nth_error (tweens s') (length (tweens s)) = Some t
        /\ Gsap.running t = true /\ playhead t = 0%nat
        /\ vars t = Animate.tweenVars listing (direction o)
                      (scrollWidthOf (elems (clonedItems s)) (gap o))
                      (containerWidth s) (speed o))
  /\ (forall j t, (j < length (tweens s))%nat ->
        nth_error (tweens s') j = Some t -> killed t = true)
  /\ clonedItems s' = clonedItems s
  /\ measured s' = measured s.
Proof.
  intros s s' Hm Hne Hg Hdep.
  destruct (restart_tweens w l o0 es o Hm Hne Hg Hdep)
    as (ts & Hlen & Hall & Hts & Hr & Hc & Hme & _).
  fold s in Hlen, Hts, Hr, Hc, Hme. fold s' in Hts, Hr, Hc, Hme.
  rewrite Hts, Hr, <- Hlen. split; [rewrite length_app; cbn; lia|].
  split; [reflexivity|]. split.
  - eexists. rewrite nth_error_app2, Nat.sub_diag by lia.
    split; [reflexivity|]. repeat split.
  - split; [|split; assumption].
    intros j t Hj Hn. rewrite nth_error_app1 in Hn by assumption.
    apply (Hall j t Hn).
Qed.

Lemma run_snoc (s : State) (es : list Event) (e : Event) :
  run s (es ++ [e]) = step (run s es) e.
Proof. unfold run. rewrite fold_left_app. reflexivity. Qed.

(** X10.  A pause does not outlive the tween it was put on: with the
    pointer over the container and the tween paused, an update that
    brings another speed or direction leaves the listeners attached and
    the tween in [tweenRef] running. *)
Theorem restart_ignores_hover (w : Z) (l : list ReactNode) (o0 : Options)
    (es : list Event) (o : Options) :
  let s := run (mount w l o0) es in
  let hovered := step s MouseEnter in
  let s' := step hovered (Update None o) in
  hoverListeners s = true ->
  elems (clonedItems s) <> [] ->
  pauseOnHover o = true ->
  gap o = gap (options (props s)) ->
  Qeq_bool (speed (options (props s))) (speed o) = false
  \/ direction_eqb (direction (options (props s))) (direction o) = false ->
  (forall i t, tweenRef s = Some i -> nth_error (tweens hovered) i = Some t ->
     paused t = true)
  /\ hoverListeners s' = true
  /\ exists i t,
       tweenRef s' = Some i /\ nth_error (tweens s') i = Some t
       /\ Gsap.running t = true.
Proof.
  intros s hovered s' Hh Hne Hp Hg Hdep.
  pose proof (reachable_inv w l o0 es) as Hinv. fold s in Hinv.
  destruct Hinv as ((_ & Href) & _ & (Hhover & _)).
  assert (Hm : mounted s = true).
  { rewrite Hh in Hhover. symmetry in Hhover.
    apply andb_true_iff in Hhover. apply Hhover. }
  assert (Hsame : mounted hovered = true /\ props hovered = props s
                  /\ clonedItems hovered = clonedItems s).
  { unfold hovered. cbn [step]. rewrite Hh. unfold handleMouseEnter.
    destruct (tweenRef s); cbn; auto. }
  destruct Hsame as (Hm1 & Hp1 & Hc1).
  split.
  - intros i t Hi Hn. unfold hovered in Hn. cbn [step] in Hn.
    rewrite Hh in Hn. unfold handleMouseEnter in Hn. rewrite Hi in Hn.
    cbn [tweens setTweens] in Hn.
    destruct (Href i Hi) as (t0 & Hn0 & _).
    rewrite (nth_error_onTween_same _ _ _ _ Hn0) in Hn.
    injection Hn as <-. reflexivity.
  - assert (Hrun : hovered = run (mount w l o0) (es ++ [MouseEnter]))
      by (rewrite run_snoc; reflexivity).
    pose proof (restart_tweens w l o0 (es ++ [MouseEnter]) o) as R.
    cbv zeta in R. rewrite <- Hrun in R. fold s' in R.
    rewrite Hp1, Hc1 in R.
    destruct (R Hm1 Hne Hg Hdep) as (ts & _ & _ & Hts & Hr & _ & _ & Hh').
    split; [rewrite Hh'; exact Hp|].
    exists (length ts). eexists. rewrite Hts, Hr.
    rewrite nth_error_app2, Nat.sub_diag by lia.
    split; [reflexivity|]. split; reflexivity.
Qed.

(** X11.  When [items] is replaced, the widths that are measured are
    those of the list shown before the update, with the new [gap]; if
    their total is positive, the list committed is the new [items]
    repeated by the clone count of that total. *)
Theorem new_items_counted_on_old_children (w : Z) (l : list ReactNode)
    (o0 : Options) (es : list Event) (l' : list ReactNode) (o : Options) :
  let s := run (mount w l o0) es in
  let s' := step s (Update (Some l') o) in
  let shown := Measure.measureTotalWidth (gap o) (childWidths s) in
  mounted s = true ->
  0 < shown ->
  elems (clonedItems s')
  = Measure.repeatItems (Measure.cloneCount (containerWidth s) shown) l'
  /\ measured s' = measured s ++ [(childWidths s, true)].
Proof.
  intros s s' shown Hm Hpos.
  pose proof (reachable_inv w l o0 es) as Hinv. fold s in Hinv.
  assert (Hre : remeasures s (Update (Some l') o) = true).
  { cbn [remeasures]. rewrite Hm. reflexivity. }
  destruct (update_measures (Some l') o s Hm Hinv Hre) as [Hel Hme].
  cbv zeta in Hel, Hme.
  rewrite (positive_width_clones (gap o) (childWidths s) Hpos) in Hel, Hme.
  unfold s'. cbn [step]. rewrite Hm. split; assumption.
Qed.

Lemma mount_as_effect (w : Z) (l : list ReactNode) (o : Options) :
  let p := {| items := {| ref := 1; elems := l |}; options := o |} in
  let c := {| ref := 0%nat; elems := @nil ReactNode |} in
  let s0 := mkState true p c None [] false false [] w 2 [] [] in
  mount w l o
  = animationEffect (commitRender p (items p) (fst (passEffects true p c s0))).
Proof.
  intros p c s0. destruct (mount_unfold w l o) as (_ & _ & ->).
  fold p. fold c. fold s0.
  pose proof (passEffects_frame true p c s0) as Hf. cbn zeta in Hf.
  destruct Hf as (_ & P & C & _).
  rewrite passEffects_unmeasured by (rewrite P; apply layoutDepsChanged_refl).
  rewrite P, C, hoverDepsChanged_refl. reflexivity.
Qed.

(** X14.  Mounting with [items] that are not empty starts exactly one
    tween, over the one copy of [items] that the mount commits: its
    variables come from the scroll width of that copy, the container
    width at mount and the props; it runs from the origin.  The resize
    listener is attached, the hover listeners are attached when
    [pauseOnHover] is set, and no timer is pending. *)
Theorem mount_starts_one_tween (w : Z) (l : list ReactNode) (o : Options) :
  l <> [] ->
  tweens (mount w l o)
  = [Gsap.fresh (Animate.tweenVars listing (direction o)
                   (scrollWidthOf l (gap o)) w (speed o))]
  /\ tweenRef (mount w l o) = Some 0%nat
  /\ hoverListeners (mount w l o) = pauseOnHover o
  /\ resizeListener (mount w l o) = true
  /\ timers (mount w l o) = [].
Proof.
  intros Hne.
  destruct (mount_inv w l o) as ((_ & _ & (Hh & Hr)) & Hm).
  rewrite Hm in Hh, Hr. cbn [andb] in Hh.
  pose proof (mount_as_effect w l o) as He. cbv zeta in He.
  set (p := {| items := {| ref := 1; elems := l |}; options := o |}) in *.
  set (c := {| ref := 0%nat; elems := @nil ReactNode |}) in *.
  set (s0 := mkState true p c None [] false false [] w 2 [] []) in *.
  set (s4 := fst (passEffects true p c s0)) in *.
  pose proof (passEffects_frame true p c s0) as Hf. cbn zeta in Hf.
  fold s4 in Hf. destruct Hf as (M4 & _ & _ & T4 & W4 & _).
  destruct (passEffects_no_tween true p c s0 eq_refl eq_refl eq_refl)
    as [Ht4 Hr4]. fold s4 in Ht4, Hr4.
  assert (M : mounted (commitRender p (items p) s4) = true) by exact M4.
  destruct (animationEffect_creates (commitRender p (items p) s4) M Hne)
    as (ts & Hlen & Hts & Href).
  cbn [tweens commitRender] in Hlen. rewrite Ht4 in Hlen.
  destruct ts; [|discriminate].
  rewrite <- He in Hts, Href.
  cbn [props commitRender clonedItems options items elems containerWidth p]
    in Hts.
  rewrite W4 in Hts. cbn [containerWidth s0] in Hts.
  split; [exact Hts|]. split; [exact Href|].
  pose proof (animationEffect_frame (commitRender p (items p) s4)) as F.
  cbn zeta in F. destruct F as (_ & Fp & _ & _ & _ & Ft & _).
  rewrite <- He in Fp, Ft.
  split; [rewrite Hh, Fp; reflexivity|]. split; [exact Hr|].
  rewrite Ft. cbn [timers commitRender]. rewrite T4. reflexivity.
Qed.

(** X6.  Neither a resize nor the passing of time kills, pauses or
    creates a tween, even when they empty the rendered list: a resize
    leaves the tweens as they are and time only moves the running ones
    on. *)
Theorem resets_keep_tweens (s : State) (w : Z) (ms : nat) :
  tweens (step s (Resize w)) = tweens s
  /\ tweenRef (step s (Resize w)) = tweenRef s
  /\ tweens (step s (Elapse ms)) = map (Gsap.advance ms) (tweens s)
  /\ tweenRef (step s (Elapse ms)) = tweenRef s
  /\ map killed (tweens (step s (Elapse ms))) = map killed (tweens s)
  /\ map paused (tweens (step s (Elapse ms))) = map paused (tweens s).
Proof.
  assert (HR : tweens (step s (Resize w)) = tweens s
               /\ tweenRef (step s (Resize w)) = tweenRef s).
  { cbn [step]. destruct (resizeListener s); [|auto].
    destruct (handleResize_same (setContainerWidth w s)) as (-> & -> & _).
    auto. }
  destruct HR as [-> ->].
  cbn [step]. destruct (elapse_effect ms s) as (-> & -> & _).
  repeat split; rewrite map_map; apply map_ext; intros t;
    unfold Gsap.advance; destruct (Gsap.running t); reflexivity.
Qed.

(** ** Further properties of the timers and of the teardown *)

Lemma renderPass_timers (fuel : nat) :
  forall (first : bool) (p' : Props) (c' : JsArray ReactNode) (s : State),
    timers (renderPass fuel first p' c' s) = timers s.
Proof.
  induction fuel as [|fuel IH]; intros first p' c' s; [reflexivity|].
  pose proof (passEffects_frame first p' c' s) as Hf. cbn zeta in Hf.
  destruct Hf as (_ & _ & _ & T & _).
  rewrite renderPass_S.
  destruct (snd (passEffects first p' c' s)) as [a|]; [|exact T].
  destruct (ref a =? ref c')%nat; [exact T|].
  rewrite IH. exact T.
Qed.

Lemma clearClonedItems_timers (s : State) :
  timers (clearClonedItems s) = timers s.
Proof.
  unfold clearClonedItems. destruct (mounted s); [|reflexivity].
  rewrite renderPass_timers. reflexivity.
Qed.

Lemma fireTimers_timers (l : list TimerAction) :
  forall s, timers (fold_left fireTimer l s) = timers s.
Proof.
  induction l as [|a l IH]; intros s; cbn [fold_left]; [reflexivity|].
  rewrite IH. destruct a; cbn; [reflexivity | apply clearClonedItems_timers].
Qed.

Lemma fireTimers_unmounted (l : list TimerAction) (s : State) :
  mounted s = false -> fold_left fireTimer l s = s.
Proof.
  intros Hm. induction l as [|a l IH]; cbn [fold_left]; [reflexivity|].
  destruct a; cbn [fireTimer]; [exact IH|].
  unfold clearClonedItems. rewrite Hm. exact IH.
Qed.

(** X7.  Once the component is unmounted its handlers are gone: updates,
    pointer events and a second unmount leave the state as it is, a
    resize changes the container width and nothing else, and the
    passing of time changes neither the rendered list nor what was
    committed or measured, whatever timer was pending. *)
Theorem unmounted_ignores_events (w : Z) (l : list ReactNode) (o0 : Options)
    (es : list Event) :
  let s := run (mount w l o0) es in
  mounted s = false ->
  (forall l' o, step s (Update l' o) = s)
  /\ step s MouseEnter = s /\ step s MouseLeave = s /\ step s Unmount = s
  /\ (forall w', step s (Resize w') = setContainerWidth w' s)
  /\ (forall ms,
        clonedItems (step s (Elapse ms)) = clonedItems s
        /\ commits (step s (Elapse ms)) = commits s
        /\ measured (step s (Elapse ms)) = measured s
        /\ mounted (step s (Elapse ms)) = false
        /\ hoverListeners (step s (Elapse ms)) = false
        /\ resizeListener (step s (Elapse ms)) = false).
Proof.
  intros s Hm.
  pose proof (reachable_inv w l o0 es) as Hinv. fold s in Hinv.
  destruct Hinv as (_ & _ & (Hh & Hr)). rewrite Hm in Hh, Hr. cbn in Hh.
  cbn [step]. rewrite Hm, Hh, Hr.
  split; [intros; reflexivity|].
  split; [reflexivity|]. split; [reflexivity|]. split; [reflexivity|].
  split; [intros; reflexivity|].
  intros ms. unfold elapse. cbv zeta.
  rewrite fireTimers_unmounted by exact Hm.
  cbn. auto 10.
Qed.

Lemma timers_kind_step (s : State) (e : Event) :
  Forall (fun t => isClear t
                   = match listing with
                     | FullScroll => false
                     | ScrollMinusContainer => true
                     end) (timers s) ->
  Forall (fun t => isClear t
                   = match listing with
                     | FullScroll => false
                     | ScrollMinusContainer => true
                     end) (timers (step s e)).
Proof.
  intros H. destruct e as [l o|w|ms| | |]; cbn [step].
  - destruct (mounted s); [|exact H]. unfold update.
    destruct l; rewrite renderPass_timers; exact H.
  - destruct (resizeListener s); [|exact H].
    unfold handleResize. destruct listing; cbv zeta; cbn [timers setTimers].
    + rewrite clearClonedItems_timers. cbn [timers setContainerWidth].
      apply Forall_app. split; [exact H|]. constructor; [reflexivity | constructor].
    + apply Forall_app. split; [|constructor; [reflexivity | constructor]].
      apply Forall_forall. intros t Ht. apply filter_In in Ht.
      cbn [timers setContainerWidth] in Ht.
      rewrite Forall_forall in H. apply H. apply Ht.
  - unfold elapse. cbv zeta. rewrite fireTimers_timers. cbn [timers setTimers].
    apply Forall_forall. intros t Ht. apply in_map_iff in Ht.
    destruct Ht as (t0 & <- & Ht0). apply filter_In in Ht0.
    rewrite Forall_forall in H. apply (H t0). apply Ht0.
  - destruct (hoverListeners s); [|exact H].
    unfold handleMouseEnter. destruct (tweenRef s); exact H.
  - destruct (hoverListeners s); [|exact H].
    unfold handleMouseLeave. destruct (tweenRef s); exact H.
  - destruct (mounted s); exact H.
Qed.

Lemma timers_kind (w : Z) (l : list ReactNode) (o : Options) (es : list Event) :
  Forall (fun t => isClear t
                   = match listing with
                     | FullScroll => false
                     | ScrollMinusContainer => true
                     end) (timers (run (mount w l o) es)).
Proof.
  assert (H0 : timers (mount w l o) = []).
  { unfold mount. rewrite renderPass_timers. reflexivity. }
  assert (Hgen : forall es' s,
             Forall (fun t => isClear t
                              = match listing with
                                | FullScroll => false
                                | ScrollMinusContainer => true
                                end) (timers s) ->
             Forall (fun t => isClear t
                              = match listing with
                                | FullScroll => false
                                | ScrollMinusContainer => true
                                end) (timers (run s es'))).
  { induction es' as [|e es' IH]; intros s H; cbn; [exact H|].
    apply IH. apply timers_kind_step. exact H. }
  apply Hgen. rewrite H0. constructor.
Qed.

Lemma filter_clears (ts : list Timer) :
  Forall (fun t => isClear t = true) ts ->
  filter (fun t => negb (isClear t)) ts = [].
Proof.
  induction 1 as [|t ts Ht _ IH]; cbn; [reflexivity|].
  rewrite Ht. exact IH.
Qed.

(** A resize in the second listing, with the listener attached. *)
Lemma debounced_resize (s : State) (w : Z) :
  listing = ScrollMinusContainer ->
  resizeListener s = true ->
  Forall (fun t => isClear t = true) (timers s) ->
  step s (Resize w)
  = setTimers [{| remaining := 100; action := ClearClonedItems |}]
      (setContainerWidth w s).
Proof.
  intros Hl Hr Hc. cbn [step]. rewrite Hr. unfold handleResize. rewrite Hl.
  cbn [timers setContainerWidth]. rewrite filter_clears by exact Hc.
  reflexivity.
Qed.

Lemma debounced_burst (ws : list Z) :
  listing = ScrollMinusContainer ->
  forall s,
    ws <> [] ->
    resizeListener s = true ->
    Forall (fun t => isClear t = true) (timers s) ->
    timers (run s (map Resize ws))
    = [{| remaining := 100; action := ClearClonedItems |}]
    /\ clonedItems (run s (map Resize ws)) = clonedItems s
    /\ commits (run s (map Resize ws)) = commits s
    /\ mounted (run s (map Resize ws)) = mounted s
    /\ nextRef (run s (map Resize ws)) = nextRef s
    /\ props (run s (map Resize ws)) = props s.
Proof.
  intros Hl. induction ws as [|w ws IH]; intros s Hne Hr Hc; [congruence|].
  cbn [map run fold_left]. fold (run (step s (Resize w)) (map Resize ws)).
  rewrite (debounced_resize s w Hl Hr Hc).
  set (s1 := setTimers [{| remaining := 100; action := ClearClonedItems |}]
               (setContainerWidth w s)).
  destruct ws as [|w' ws'].
  - cbn. auto 10.
  - destruct (IH s1) as (-> & -> & -> & -> & -> & ->).
    + discriminate.
    + exact Hr.
    + constructor; [reflexivity | constructor].
    + cbn. auto 10.
Qed.

(** X4.  The debounce of the second listing.  However many resize events
    follow one another, one timer of 100 ms is pending afterwards and
    the rendered list is as it was; it stays so while less than 100 ms
    have passed, and once 100 ms have passed the list is emptied by one
    single commit and no timer is left. *)
Theorem resize_burst_debounced (w : Z) (l : list ReactNode) (o0 : Options)
    (es : list Event) (ws : list Z) :
  listing = ScrollMinusContainer ->
  let s := run (mount w l o0) es in
  let burst := run s (map Resize ws) in
  mounted s = true ->
  ws <> [] ->
  timers burst = [{| remaining := 100; action := ClearClonedItems |}]
  /\ clonedItems burst = clonedItems s
  /\ commits burst = commits s
  /\ (forall ms, (ms < 100)%nat ->
        clonedItems (step burst (Elapse ms)) = clonedItems s
        /\ commits (step burst (Elapse ms)) = commits s
        /\ timers (step burst (Elapse ms))
           = [{| remaining := (100 - ms)%nat; action := ClearClonedItems |}])
  /\ (forall ms, (100 <= ms)%nat ->
        elems (clonedItems (step burst (Elapse ms))) = []
        /\ commits (step burst (Elapse ms)) = commits s ++ [[]]
        /\ timers (step burst (Elapse ms)) = []).
Proof.
  intros Hl s burst Hm Hne.
  pose proof (reachable_inv w l o0 es) as Hinv. fold s in Hinv.
  destruct Hinv as (_ & _ & (_ & Hr)). rewrite Hm in Hr.
  pose proof (timers_kind w l o0 es) as Hk. fold s in Hk. rewrite Hl in Hk.
  destruct (debounced_burst ws Hl s Hne Hr Hk) as (Ht & Hc & Hco & Hmb & _).
  fold burst in Ht, Hc, Hco, Hmb.
  split; [exact Ht|]. split; [exact Hc|]. split; [exact Hco|].
  split; intros ms Hms; cbn [step]; unfold elapse; cbv zeta; rewrite Ht;
    cbn [filter map remaining action].
  - destruct (Nat.leb_spec 100 ms); [lia|].
    cbn [negb filter map remaining action fold_left].
    cbn [clonedItems commits timers setTimers setTweens].
    auto.
  - destruct (Nat.leb_spec 100 ms); [|lia].
    cbn [negb filter map action fold_left fireTimer].
    rewrite clearClonedItems_eq by (cbn; congruence).
    cbn. rewrite Hco. auto.
Qed.

(** A resize in the first listing, with the component mounted. *)
Lemma immediate_resize (s : State) (w : Z) :
  listing = FullScroll ->
  resizeListener s = true -> mounted s = true ->
  elems (clonedItems (step s (Resize w))) = []
  /\ commits (step s (Resize w)) = commits s ++ [[]]
  /\ timers (step s (Resize w))
     = timers s ++ [{| remaining := 50; action := DispatchResizeTrigger |}]
  /\ mounted (step s (Resize w)) = true
  /\ resizeListener (step s (Resize w)) = true.
Proof.
  intros Hl Hr Hm. cbn [step]. rewrite Hr. unfold handleResize. rewrite Hl.
  cbv zeta. rewrite clearClonedItems_eq by exact Hm. cbn.
  rewrite Hm, Hr. auto.
Qed.

Lemma immediate_burst (ws : list Z) :
  listing = FullScroll ->
  forall s,
    resizeListener s = true -> mounted s = true ->
    commits (run s (map Resize ws)) = commits s ++ repeat [] (length ws)
    /\ length (timers (run s (map Resize ws)))
       = (length (timers s) + length ws)%nat
    /\ (ws <> [] -> elems (clonedItems (run s (map Resize ws))) = []).
Proof.
  intros Hl. induction ws as [|w ws IH]; intros s Hr Hm.
  - cbn. rewrite app_nil_r. split; [reflexivity|]. split; [lia | congruence].
  - cbn [map run fold_left]. fold (run (step s (Resize w)) (map Resize ws)).
    destruct (immediate_resize s w Hl Hr Hm) as (He & Hc & Ht & Hm' & Hr').
    destruct (IH (step s (Resize w)) Hr' Hm') as (-> & -> & Hel).
    rewrite Hc, Ht, length_app, <- app_assoc. cbn [length repeat app].
    split; [reflexivity|]. split; [lia|].
    intros _. destruct ws as [|w' ws']; [exact He | apply Hel; discriminate].
Qed.

Lemma fireTimers_dispatch (l : list Timer) (s : State) :
  Forall (fun t => isClear t = false) l ->
  fold_left fireTimer (map action l) s = s.
Proof.
  induction 1 as [|t l Ht _ IH]; cbn [map fold_left]; [reflexivity|].
  unfold isClear in Ht. destruct (action t); [exact IH | discriminate].
Qed.

(** X5.  The first listing does not debounce.  Every resize event of a
    mounted component empties the rendered list at once, by a commit of
    its own, and sets one timer of 50 ms; when the timers fire nothing
    is committed and the list stays as the resizes left it. *)
Theorem resize_resets_every_time (w : Z) (l : list ReactNode) (o0 : Options)
    (es : list Event) (ws : list Z) :
  listing = FullScroll ->
  let s := run (mount w l o0) es in
  let after := run s (map Resize ws) in
  mounted s = true ->
  commits after = commits s ++ repeat [] (length ws)
  /\ length (timers after) = (length (timers s) + length ws)%nat
  /\ (ws <> [] -> elems (clonedItems after) = [])
  /\ forall ms,
       commits (step after (Elapse ms)) = commits after
       /\ clonedItems (step after (Elapse ms)) = clonedItems after.
Proof.
  intros Hl s after Hm.
  pose proof (reachable_inv w l o0 es) as Hinv. fold s in Hinv.
  destruct Hinv as (_ & _ & (_ & Hr)). rewrite Hm in Hr.
  destruct (immediate_burst ws Hl s Hr Hm) as (Hc & Ht & He).
  fold after in Hc, Ht, He.
  split; [exact Hc|]. split; [exact Ht|]. split; [exact He|].
  intros ms. cbn [step]. unfold elapse. cbv zeta.
  assert (Hk : Forall (fun t => isClear t = false) (timers after)).
  { pose proof (timers_kind w l o0 (es ++ map Resize ws)) as K.
    rewrite Hl in K. unfold run in K. rewrite fold_left_app in K. exact K. }
  rewrite fireTimers_dispatch.
  - split; reflexivity.
  - apply Forall_forall. intros t Hin. apply filter_In in Hin.
    rewrite Forall_forall in Hk. apply Hk. apply Hin.
Qed.

(** ** The mount never clones *)

(** Whatever the items measure, the list committed at mount is [items]
    once: for items of positive width it is not the [cloneCount] copies
    that an update commits, since the wrapper has no child yet when the
    measuring effect runs. *)
Lemma mount_never_clones (w : Z) (l : list ReactNode) (o : Options) :
  let totalWidth := Measure.measureTotalWidth (gap o) (map offsetWidthOf l) in
  0 < totalWidth -> 0 <= w ->
  elems (clonedItems (mount w l o)) = l
  /\ cloneRuns (mount w l o) = 0%nat
  /\ elems (clonedItems (mount w l o))
     <> Measure.repeatItems (Measure.cloneCount w totalWidth) l.
Proof.
  intros totalWidth Hpos Hw.
  destruct (mount_facts w l o) as (Hme & _ & Hel).
  split; [exact Hel|]. split; [unfold cloneRuns; rewrite Hme; reflexivity|].
  rewrite Hel. intros Heq.
  assert (Hlen : length l
                 = length (Measure.repeatItems
                             (Measure.cloneCount w totalWidth) l))
    by (rewrite <- Heq; reflexivity).
  unfold Measure.repeatItems in Hlen. rewrite length_copies in Hlen.
  pose proof (cloneCount_ge_2 w totalWidth Hpos Hw) as H2.
  assert (0 < length l)%nat.
  { destruct l; [unfold totalWidth in Hpos; cbn in Hpos; lia | cbn; lia]. }
  assert (2 <= Z.to_nat (Measure.cloneCount w totalWidth))%nat by lia.
  nia.
Qed.

End Component.

Arguments mount {ReactNode}.
Arguments step {ReactNode}.
Arguments run {ReactNode}.
Arguments Update {ReactNode}.
Arguments Resize {ReactNode}.
Arguments Elapse {ReactNode}.
Arguments MouseEnter {ReactNode}.
Arguments MouseLeave {ReactNode}.
Arguments Unmount {ReactNode}.
Arguments mounted {ReactNode}.
Arguments props {ReactNode}.
Arguments options {ReactNode}.
Arguments clonedItems {ReactNode}.
Arguments tweenRef {ReactNode}.
Arguments tweens {ReactNode}.
Arguments hoverListeners {ReactNode}.
Arguments resizeListener {ReactNode}.
Arguments timers {ReactNode}.
Arguments containerWidth {ReactNode}.
Arguments measured {ReactNode}.
Arguments commits {ReactNode}.
Arguments layoutRuns {ReactNode}.
Arguments cloneRuns {ReactNode}.
Arguments activeTweens {ReactNode}.
Arguments childWidths {ReactNode}.
Arguments nextItems {ReactNode}.
Arguments remeasures {ReactNode}.
Arguments animationEffect {ReactNode}.

(** ** Worked examples

    Nodes are their own widths ([Sample.width]) and the wrapper is as wide
    as its children and gaps ([Sample.scrollWidth]). *)

Local Notation "'sampleMount'" := (mount Sample.width Sample.scrollWidth).
Local Notation "'sampleStep'" := (step Sample.width Sample.scrollWidth).
Local Notation "'sampleRun'" := (run Sample.width Sample.scrollWidth).

(** Two items of 100 and 50 pixels in a container of 300: after the mount
    the wrapper shows one copy; a change of [gap] to 10 measures 160 and
    commits [ceil(300 / 160) + 2 = 4] copies. *)
Lemma clones_committed_witness :
  let s := sampleMount FullScroll 300 [100; 50] defaultOptions in
  mounted s = true
  /\ remeasures s (Update None Sample.tightOptions) = true
  /\ elems (clonedItems s) = [100; 50]
  /\ 0 < Measure.measureTotalWidth 10 [100; 50]
  /\ elems (clonedItems (sampleStep FullScroll s (Update None Sample.tightOptions)))
     = [100; 50; 100; 50; 100; 50; 100; 50].
Proof.
  cbv zeta.
  split; [reflexivity|]. split; [reflexivity|]. split; [reflexivity|].
  split; [reflexivity|].
  apply (clones_committed Z Sample.width Sample.scrollWidth FullScroll
           300 [100; 50] defaultOptions [] None Sample.tightOptions);
    reflexivity.
Defined.

(** C2 as stated fails: one item of 100 pixels, a gap of 20 and a
    container of 1000 give 12 copies, 1420 pixels in all, less than 2000. *)
Lemma rendered_width_counterexample :
  let totalWidth := Measure.measureTotalWidth 20 (map Sample.width [100]) in
  let rendered :=
    Measure.measureTotalWidth 20
      (map Sample.width
         (Measure.repeatItems (Measure.cloneCount 1000 totalWidth) [100])) in
  0 < totalWidth /\ rendered = 1420 /\ ~ (2 * 1000 <= rendered).
Proof.
  cbv zeta.
  assert (H : Measure.measureTotalWidth 20
                (map Sample.width
                   (Measure.repeatItems
                      (Measure.cloneCount 1000
                         (Measure.measureTotalWidth 20 (map Sample.width [100])))
                      [100])) = 1420) by (vm_compute; reflexivity).
  rewrite H. split; [reflexivity|]. split; [reflexivity | lia].
Qed.

Lemma rendered_width_bound_witness :
  let totalWidth := Measure.measureTotalWidth 20 (map Sample.width [100; 50]) in
  let rendered :=
    Measure.measureTotalWidth 20
      (map Sample.width
         (Measure.repeatItems (Measure.cloneCount 300 totalWidth) [100; 50])) in
  0 < totalWidth /\ 0 <= 20 /\ 0 <= 300
  /\ 300 + 2 * totalWidth <= rendered.
Proof.
  cbv zeta.
  split; [reflexivity|]. split; [lia|]. split; [lia|].
  refine (proj1 (proj2 (rendered_width_bound Z Sample.width [100; 50] 20 300
                          _ _ _)));
    [reflexivity | lia | lia].
Defined.

(** C3 as stated fails in the second listing: a wrapper 1000 wide in a
    container 200 wide at 50 px/s gets a tween of 16 s, not 20 s. *)
Lemma duration_counterexample :
  let s := sampleMount ScrollMinusContainer 200 [1000] defaultOptions in
  let scrollWidth := Sample.scrollWidth (elems (clonedItems s)) 20 in
  elems (clonedItems s) = [1000]
  /\ scrollWidth = 1000
  /\ exists t,
       tweenRef s = Some 0%nat /\ nth_error (tweens s) 0 = Some t
       /\ killed t = false
       /\ (duration (vars t) == 16)%Q
       /\ ~ (duration (vars t) == inject_Z scrollWidth / 50)%Q.
Proof.
  cbv zeta. split; [reflexivity|]. split; [reflexivity|].
  eexists. split; [reflexivity|]. split; [reflexivity|].
  split; [reflexivity|]. split; [reflexivity|].
  vm_compute. discriminate.
Qed.

(** A wrapper 1000 wide at 50 px/s: 20 s in the first listing. *)
Lemma duration_by_listing_witness :
  let s := sampleMount FullScroll 200 [1000] defaultOptions in
  mounted s = true /\ elems (clonedItems s) <> []
  /\ 0 <= Sample.scrollWidth (elems (clonedItems s)) 20
  /\ (0 < 50)%Q
  /\ exists i t,
       tweenRef (animationEffect Sample.scrollWidth FullScroll s) = Some i
       /\ nth_error (tweens (animationEffect Sample.scrollWidth FullScroll s)) i
          = Some t
       /\ killed t = false
       /\ duration (vars t) = (inject_Z 1000 / 50)%Q.
Proof.
  cbv zeta.
  split; [reflexivity|]. split; [discriminate|]. split; [vm_compute; discriminate|].
  split; [reflexivity|].
  apply (duration_by_listing Z Sample.scrollWidth FullScroll
           (sampleMount FullScroll 200 [1000] defaultOptions));
    [reflexivity | discriminate | vm_compute; discriminate | reflexivity].
Defined.

(** C4 as stated fails: at mount the measuring effect finds no child and
    clones nothing, the list committed is [items], and yet a tween is
    created when [items] is not empty. *)
Lemma skipped_cloning_counterexample :
  let s := sampleMount FullScroll 300 [100; 50] defaultOptions in
  measured s = [([], false)]
  /\ cloneRuns s = 0%nat
  /\ elems (clonedItems s) = [100; 50]
  /\ ~ (tweens s = [])
  /\ exists t, nth_error (tweens s) 0 = Some t /\ Gsap.running t = true.
Proof.
  cbv zeta. split; [reflexivity|]. split; [reflexivity|].
  split; [reflexivity|]. split; [discriminate|].
  eexists. split; reflexivity.
Qed.

(** An item without width: the update that changes [gap] measures 0 and
    commits [items] as given. *)
Lemma skipped_cloning_witness :
  let s := sampleMount FullScroll 300 [0] defaultOptions in
  mounted s = true
  /\ remeasures s (Update None Sample.tightOptions) = true
  /\ (Measure.measureTotalWidth 10 (childWidths Sample.width s) <= 0
      \/ childWidths Sample.width s = [])
  /\ elems (clonedItems (sampleStep FullScroll s (Update None Sample.tightOptions)))
     = [0].
Proof.
  cbv zeta.
  split; [reflexivity|]. split; [reflexivity|].
  split; [left; vm_compute; discriminate|].
  apply (skipped_cloning Z Sample.width Sample.scrollWidth FullScroll
           300 [0] defaultOptions [] None Sample.tightOptions);
    [reflexivity | reflexivity | left; vm_compute; discriminate].
Defined.

(** A change of [gap] starts a second tween; the first one is killed. *)
Lemma single_active_tween_witness :
  let s := sampleMount FullScroll 300 [100; 50] defaultOptions in
  let e := Update None Sample.tightOptions in
  (length (tweens s) < length (tweens (sampleStep FullScroll s e)))%nat
  /\ (0 < length (tweens s))%nat
  /\ exists t,
       nth_error (tweens (sampleStep FullScroll s e)) 0 = Some t
       /\ killed t = true.
Proof.
  cbv zeta.
  split; [vm_compute; lia|]. split; [vm_compute; lia|].
  eexists. split; [reflexivity|].
  apply (proj2 (single_active_tween Z Sample.width Sample.scrollWidth
                  FullScroll 300 [100; 50] defaultOptions [])
           (Update None Sample.tightOptions) 0%nat);
    [vm_compute; lia | vm_compute; lia | reflexivity].
Defined.

(** Half a second after the mount the pointer enters. *)
Lemma hover_pauses_in_place_witness :
  let s := sampleRun ScrollMinusContainer
             (sampleMount ScrollMinusContainer 300 [100; 50] Sample.hoverOptions)
             [Elapse 500] in
  hoverListeners s = true /\ tweenRef s = Some 0%nat
  /\ exists t,
       nth_error (tweens s) 0 = Some t /\ killed t = false
       /\ forall dts,
            let frozen :=
              sampleRun ScrollMinusContainer
                (sampleStep ScrollMinusContainer s MouseEnter)
                (map Elapse dts) in
            let resumed := sampleStep ScrollMinusContainer frozen MouseLeave in
            (exists tf,
                nth_error (tweens frozen) 0 = Some tf
                /\ paused tf = true
                /\ playhead tf = playhead t
                /\ Gsap.offset tf = Gsap.offset t)
            /\ (exists tr,
                   nth_error (tweens resumed) 0 = Some tr
                   /\ Gsap.running tr = true
                   /\ playhead tr = playhead t
                   /\ Gsap.offset tr = Gsap.offset t)
            /\ forall ms,
                 exists tm,
                   nth_error
                     (tweens (sampleStep ScrollMinusContainer resumed (Elapse ms)))
                     0 = Some tm
                   /\ playhead tm = (playhead t + ms)%nat
                   /\ vars tm = vars t.
Proof.
  cbv zeta. split; [reflexivity|]. split; [reflexivity|].
  apply (proj2 (hover_pauses_in_place Z Sample.width Sample.scrollWidth
                  ScrollMinusContainer 300 [100; 50] Sample.hoverOptions
                  [Elapse 500]) 0%nat); reflexivity.
Defined.

(** A change of direction measures nothing. *)
Lemma first_commit_is_items_witness :
  let s := sampleMount FullScroll 300 [100; 50] defaultOptions in
  let e := Update None Sample.hoverOptions in
  remeasures s e = false
  /\ measured (sampleStep FullScroll s e) = measured s.
Proof.
  cbv zeta. split; [reflexivity|].
  apply (first_commit_is_items Z Sample.width Sample.scrollWidth FullScroll
           300 [100; 50] defaultOptions). reflexivity.
Defined.

(** C7 fails on the code.  The component is unmounted while its tween
    runs: the listeners are removed, but the tween is neither killed nor
    paused, and time still moves it on. *)
Theorem unmount_leaves_tween_running (listing : Listing) :
  let s0 := sampleMount listing 300 [100; 50] Sample.hoverOptions in
  let s := sampleRun listing s0 [Unmount] in
  mounted s = false
  /\ hoverListeners s = false /\ resizeListener s = false
  /\ (exists t, nth_error (tweens s) 0 = Some t /\ Gsap.running t = true)
  /\ length (activeTweens s) = 1%nat
  /\ exists t',
       nth_error (tweens (sampleStep listing s (Elapse 1000))) 0 = Some t'
       /\ playhead t' = 1000%nat.
Proof.
  destruct listing; cbv zeta;
    (split; [reflexivity|]; split; [reflexivity|]; split; [reflexivity|];
     split; [eexists; split; reflexivity|]; split; [reflexivity|];
     eexists; split; reflexivity).
Qed.

(** C9 fails on the code.  After a resize, and once every timer has
    fired, the rendered list is empty and stays empty, and the measuring
    effect has not run again: no cycle follows, in either listing. *)
Theorem resize_leaves_list_empty (listing : Listing) :
  let s0 := sampleMount listing 300 [100; 50] defaultOptions in
  let s := sampleRun listing s0 [Resize 500; Elapse 200] in
  elems (clonedItems s0) = [100; 50]
  /\ timers s = []
  /\ elems (clonedItems s) = []
  /\ layoutRuns s = layoutRuns s0
  /\ measured s = [([], false)]
  /\ elems (clonedItems (sampleStep listing s (Elapse 1000))) = [].
Proof.
  destruct listing; cbv zeta; repeat split; reflexivity.
Qed.

(** ** Worked examples for the further properties *)

Lemma measuring_loop_total_witness :
  [100; 50] <> [] /\ [30] <> []
  /\ Measure.measureTotalWidth 20 [100; 50] = 170
  /\ Measure.measureTotalWidth 20 ([100; 50] ++ [30]) = 170 + 20 + 30.
Proof.
  split; [discriminate|]. split; [discriminate|]. split.
  - apply (proj1 (proj2 (measuring_loop_total 20 [100; 50] [30]))).
    discriminate.
  - apply (proj2 (proj2 (measuring_loop_total 20 [100; 50] [30])));
      discriminate.
Defined.

Lemma clone_count_bounds_witness :
  0 < 160
  /\ (Measure.cloneCount 300 160 - 3) * 160 < 300
     <= (Measure.cloneCount 300 160 - 2) * 160.
Proof.
  split; [reflexivity|].
  apply (clone_count_bounds 300 160). reflexivity.
Defined.

Lemma repeated_items_periodic_witness :
  [100; 50] <> [] /\ (3 < Z.to_nat 2 * length [100; 50])%nat
  /\ nth_error (Measure.repeatItems 2 [100; 50]) 3
     = nth_error [100; 50] (3 mod length [100; 50]).
Proof.
  split; [discriminate|]. split; [vm_compute; lia|].
  apply (proj2 (repeated_items_periodic 2 [100; 50]));
    [discriminate | vm_compute; lia].
Defined.

Lemma translation_sign_witness :
  170 < 300 /\ (0 < 50)%Q
  /\ 0 < x (Animate.tweenVars ScrollMinusContainer DirLeft 170 300 50)
  /\ x (Animate.tweenVars ScrollMinusContainer DirRight 170 300 50) < 0
  /\ (duration (Animate.tweenVars ScrollMinusContainer DirLeft 300 300 50)
       == 0)%Q.
Proof.
  split; [reflexivity|]. split; [reflexivity|].
  split; [|split].
  - apply (proj1 (proj2 (translation_sign DirLeft 170 300 50))). reflexivity.
  - apply (proj1 (proj2 (translation_sign DirLeft 170 300 50))). reflexivity.
  - apply (proj2 (proj2 (translation_sign DirLeft 300 300 50)));
      reflexivity.
Defined.

Lemma update_renders_at_most_twice_witness :
  let s := sampleMount FullScroll 300 [100; 50] defaultOptions in
  let s' := sampleStep FullScroll s (Update None Sample.tightOptions) in
  mounted s = true
  /\ (commits s' = commits s ++ [elems (clonedItems s)]
      \/ exists a, commits s' = commits s ++ [elems (clonedItems s); a]).
Proof.
  cbv zeta. split; [reflexivity|].
  apply (update_renders_at_most_twice Z Sample.width Sample.scrollWidth
           FullScroll (sampleMount FullScroll 300 [100; 50] defaultOptions)
           None Sample.tightOptions).
  reflexivity.
Defined.

Lemma rerender_same_props_witness :
  let s := sampleMount FullScroll 300 [100; 50] defaultOptions in
  let s' := sampleStep FullScroll s (Update None (options (props s))) in
  mounted s = true
  /\ tweens s' = tweens s /\ tweenRef s' = tweenRef s
  /\ clonedItems s' = clonedItems s
  /\ hoverListeners s' = hoverListeners s
  /\ resizeListener s' = resizeListener s
  /\ timers s' = timers s
  /\ measured s' = measured s
  /\ commits s' = commits s ++ [elems (clonedItems s)].
Proof.
  cbv zeta. split; [reflexivity|].
  apply (rerender_same_props Z Sample.width Sample.scrollWidth FullScroll
           (sampleMount FullScroll 300 [100; 50] defaultOptions)).
  reflexivity.
Defined.

(** The speed goes from 50 to 80 px/s. *)
Lemma speed_change_restarts_witness :
  let s := sampleMount FullScroll 300 [100; 50] Sample.hoverOptions in
  let o := {| speed := 80%Q; gap := 20; direction := DirLeft;
              pauseOnHover := true |} in
  let s' := sampleStep FullScroll s (Update None o) in
  mounted s = true /\ elems (clonedItems s) <> []
  /\ gap o = gap (options (props s))
  /\ Qeq_bool (speed (options (props s))) (speed o) = false
  /\ length (tweens s') = S (length (tweens s))
  /\ tweenRef s' = Some (length (tweens s)).
Proof.
  cbv zeta. split; [reflexivity|]. split; [discriminate|].
  split; [reflexivity|]. split; [reflexivity|].
  pose proof (speed_change_restarts Z Sample.width Sample.scrollWidth
                FullScroll 300 [100; 50] Sample.hoverOptions []
                {| speed := 80%Q; gap := 20; direction := DirLeft;
                   pauseOnHover := true |}) as H.
  cbv zeta in H.
  destruct (H eq_refl ltac:(discriminate) eq_refl (or_introl eq_refl))
    as (H1 & H2 & _).
  split; [exact H1 | exact H2].
Defined.

Lemma restart_ignores_hover_witness :
  let s := sampleMount FullScroll 300 [100; 50] Sample.hoverOptions in
  let o := {| speed := 80%Q; gap := 20; direction := DirLeft;
              pauseOnHover := true |} in
  let s' := sampleStep FullScroll (sampleStep FullScroll s MouseEnter)
              (Update None o) in
  hoverListeners s = true /\ elems (clonedItems s) <> []
  /\ pauseOnHover o = true /\ gap o = gap (options (props s))
  /\ Qeq_bool (speed (options (props s))) (speed o) = false
  /\ hoverListeners s' = true
  /\ exists i t,
       tweenRef s' = Some i /\ nth_error (tweens s') i = Some t
       /\ Gsap.running t = true.
Proof.
  cbv zeta. split; [reflexivity|]. split; [discriminate|].
  split; [reflexivity|]. split; [reflexivity|]. split; [reflexivity|].
  pose proof (restart_ignores_hover Z Sample.width Sample.scrollWidth
                FullScroll 300 [100; 50] Sample.hoverOptions []
                {| speed := 80%Q; gap := 20; direction := DirLeft;
                   pauseOnHover := true |}) as H.
  cbv zeta in H.
  destruct (H eq_refl ltac:(discriminate) eq_refl eq_refl (or_introl eq_refl))
    as (_ & H1 & H2).
  split; [exact H1 | exact H2].
Defined.

(** One item of 7 pixels replaces two items that measure 170: the count
    of copies is that of 170, [ceil(300 / 170) + 2 = 4]. *)
Lemma new_items_counted_on_old_children_witness :
  let s := sampleMount FullScroll 300 [100; 50] defaultOptions in
  let s' := sampleStep FullScroll s (Update (Some [7]) defaultOptions) in
  mounted s = true
  /\ 0 < Measure.measureTotalWidth 20 (childWidths Sample.width s)
  /\ elems (clonedItems s') = [7; 7; 7; 7].
Proof.
  cbv zeta. split; [reflexivity|]. split; [reflexivity|].
  apply (new_items_counted_on_old_children Z Sample.width Sample.scrollWidth
           FullScroll 300 [100; 50] defaultOptions [] [7] defaultOptions);
    reflexivity.
Defined.

Lemma mount_starts_one_tween_witness :
  [100; 50] <> []
  /\ tweens (sampleMount ScrollMinusContainer 300 [100; 50] Sample.hoverOptions)
     = [Gsap.fresh (Animate.tweenVars ScrollMinusContainer DirLeft 170 300 50)].
Proof.
  split; [discriminate|].
  apply (mount_starts_one_tween Z Sample.width Sample.scrollWidth
           ScrollMinusContainer 300 [100; 50] Sample.hoverOptions).
  discriminate.
Defined.

Lemma unmounted_ignores_events_witness :
  let s := sampleRun FullScroll
             (sampleMount FullScroll 300 [100; 50] Sample.hoverOptions)
             [Unmount] in
  mounted s = false
  /\ sampleStep FullScroll s MouseEnter = s
  /\ sampleStep FullScroll s (Update (Some [7]) defaultOptions) = s.
Proof.
  cbv zeta. split; [reflexivity|].
  pose proof (unmounted_ignores_events Z Sample.width Sample.scrollWidth
                FullScroll 300 [100; 50] Sample.hoverOptions [Unmount]) as H.
  cbv zeta in H. destruct (H eq_refl) as (H1 & H2 & _).
  split; [exact H2 | apply H1].
Defined.

Lemma resize_burst_debounced_witness :
  let s := sampleMount ScrollMinusContainer 300 [100; 50] defaultOptions in
  let burst := sampleRun ScrollMinusContainer s (map Resize [400; 500; 450]) in
  mounted s = true /\ [400; 500; 450] <> []
  /\ timers burst = [{| remaining := 100; action := ClearClonedItems |}]
  /\ clonedItems burst = clonedItems s
  /\ commits burst = commits s.
Proof.
  cbv zeta. split; [reflexivity|]. split; [discriminate|].
  pose proof (resize_burst_debounced Z Sample.width Sample.scrollWidth
                ScrollMinusContainer 300 [100; 50] defaultOptions []
                [400; 500; 450] eq_refl) as H.
  cbv zeta in H. destruct (H eq_refl ltac:(discriminate)) as (H1 & H2 & H3 & _).
  split; [exact H1|]. split; [exact H2 | exact H3].
Defined.

Lemma resize_resets_every_time_witness :
  let s := sampleMount FullScroll 300 [100; 50] defaultOptions in
  let after := sampleRun FullScroll s (map Resize [400; 500; 450]) in
  mounted s = true
  /\ commits after = commits s ++ [[]; []; []]
  /\ length (timers after) = 3%nat.
Proof.
  cbv zeta. split; [reflexivity|].
  pose proof (resize_resets_every_time Z Sample.width Sample.scrollWidth
                FullScroll 300 [100; 50] defaultOptions []
                [400; 500; 450] eq_refl) as H.
  cbv zeta in H. destruct (H eq_refl) as (H1 & H2 & _).
  split; [exact H1 | exact H2].
Defined.

(** C1 fails on the code.  Two items of 100 and 50 pixels with a gap of
    20 measure 170, and a container of 300 asks for
    [ceil(300 / 170) + 2 = 4] copies; but at mount the measuring effect
    runs over a wrapper without children, never reaches the clone count,
    and the list committed is the two items once, in either listing. *)
Theorem mount_commits_no_clones (listing : Listing) :
  let s := sampleMount listing 300 [100; 50] defaultOptions in
  let totalWidth := Measure.measureTotalWidth 20 (map Sample.width [100; 50]) in
  totalWidth = 170
  /\ Measure.cloneCount 300 totalWidth = 4
  /\ measured s = [([], false)]
  /\ cloneRuns s = 0%nat
  /\ elems (clonedItems s) = [100; 50]
  /\ elems (clonedItems s)
     <> Measure.repeatItems (Measure.cloneCount 300 totalWidth) [100; 50].
Proof.
  destruct listing; cbv zeta;
    (split; [reflexivity|]; split; [reflexivity|]; split; [reflexivity|];
     split; [reflexivity|]; split; [reflexivity|]; vm_compute; discriminate).
Qed.
